(** * The CNI wrapper plugin: Add / Del orchestration

    A shallow embedding of [src/cni-wrapper-plugin/main.go].  The two CNI
    verbs, [cmdAdd] and [cmdDel], sequence calls to collaborators that live
    outside this file (delegate plugin, metadata store, policy agent,
    interface lookup, NetOut / NetIn chain managers, masquerade toggle).

    The collaborators are taken as an environment [Env]: a record of
    functions that answer every call.  Each answer may depend on the calls
    made so far in the invocation, so an environment stands for an arbitrary
    deterministic host.  Every call is written, with its answer, to a
    chronological trace; writes to the error stream are kept next to it. *)

From Stdlib Require Import String Ascii List ZArith Lia Bool DecimalString FinFun.
Import ListNotations.
Open Scope string_scope.
Open Scope Z_scope.
Open Scope list_scope.

Set Implicit Arguments.

(** ** Data model *)

(** Go's [error], observed through its message. *)
Definition error := string.

(** A decoded JSON object ([map[string]interface{}]) that the orchestration
    only forwards; it is kept as its text. *)
Definition JSONObject := string.

(** [garden.NetOutRule], forwarded verbatim to the NetOut manager. *)
Definition NetOutRule := string.

(** [net.IP] is a byte slice. *)
Definition IP := list Z.

(** A port mapping of the runtime config.  Its declaration is in [lib]; an
    integer covers a signed as well as an unsigned field. *)
Record PortMapping := mkPortMapping {
  HostPort : Z;
  ContainerPort : Z
}.

Record RuntimeConfig := mkRuntimeConfig {
  PortMappings : list PortMapping;
  NetOutRules : list NetOutRule
}.

(** The fields of [lib.WrapperConfig] that [main.go] reads. *)
Record WrapperConfig := mkWrapperConfig {
  Datastore : string;
  IPTablesLockFile : string;
  Delegate : JSONObject;
  InstanceAddress : string;
  NoMasqueradeCIDRRange : string;
  IPTablesASGLogging : bool;
  IPTablesC2CLogging : bool;
  IPTablesDeniedLogsPerSec : Z;
  IPTablesAcceptedUDPLogsPerSec : Z;
  IngressTag : string;
  VTEPName : string;
  DNSServers : list string;
  HostTCPServices : list string;
  UnderlayIPs : list string;
  TemporaryUnderlayInterfaceNames : list string;
  PolicyAgentForcePollAddress : string;
  RuntimeCfg : RuntimeConfig
}.

(** [skel.CmdArgs], the fields used. *)
Record CmdArgs := mkCmdArgs {
  ContainerID : string;
  StdinData : string
}.

(** [types.DNS]. *)
Record DNS := mkDNS {
  Nameservers : list string;
  Domain : string;
  Search : list string;
  Options : list string
}.

Record IPNet := mkIPNet {
  IPNet_IP : IP;
  IPNet_Mask : list Z
}.

(** [current.IPConfig]. *)
Record IPConfig := mkIPConfig {
  Version : string;
  Address : IPNet;
  Gateway : IP
}.

(** [current.Result] (CNI 0.3.x).  [IPs] is a slice of pointers to
    [IPConfig]: an entry can be nil, here [None]. *)
Record Result030 := mkResult030 {
  CNIVersion : string;
  Interfaces : list string;
  IPs : list (option IPConfig);
  Routes : list string;
  ResultDNS : DNS
}.

(** The delegate's raw [types.Result], before normalisation. *)
Definition RawResult := string.

(** [datastore.Store] as the two verbs build it. *)
Record Store := mkStore {
  LockerFile : string;
  DataFilePath : string;
  VersionFilePath : string;
  LockedFilePath : string;
  FileOwner : string;
  FileGroup : string
}.

(** [datastore.Container], the record a store hands back. *)
Record Container := mkContainer {
  Container_Handle : string;
  Container_IP : string;
  Container_Metadata : JSONObject
}.

Record ChainNamer := mkChainNamer {
  MaxLength : Z
}.

(** [rules.LockedIPTables]: the rule-table accessor and its lock file. *)
Record LockedIPTables := mkLockedIPTables {
  LockFile : string
}.

(** [lib.PluginController]. *)
Record PluginController := mkPluginController {
  PC_IPTables : LockedIPTables
}.

(** [legacynet.NetOut]. *)
Record NetOut := mkNetOut {
  NetOut_ChainNamer : ChainNamer;
  NetOut_IPTables : LockedIPTables;
  NetOut_ASGLogging : bool;
  NetOut_C2CLogging : bool;
  NetOut_DeniedLogsPerSec : Z;
  NetOut_AcceptedUDPLogsPerSec : Z;
  NetOut_IngressTag : string;
  NetOut_VTEPName : string;
  NetOut_HostInterfaceNames : list string;
  NetOut_ContainerHandle : string;
  NetOut_ContainerIP : string;
  NetOut_HostTCPServices : list string;
  NetOut_DNSServers : list string
}.

(** [legacynet.NetIn]. *)
Record NetIn := mkNetIn {
  NetIn_ChainNamer : ChainNamer;
  NetIn_IPTables : LockedIPTables;
  NetIn_IngressTag : string;
  NetIn_HostInterfaceNames : list string
}.

(** [http.Response]: the status and the body as [ioutil.ReadAll] yields it. *)
Record Response := mkResponse {
  StatusCode : Z;
  Body : string
}.

Definition StatusOK : Z := 200.

(** ** Calls to collaborators, and the trace *)

Inductive Call :=
| IptablesNew
| DelegateAdd (pc : PluginController) (delegate : JSONObject)
| DelegateDel (pc : PluginController) (delegate : JSONObject)
| StoreAdd (store : Store) (handle ip : string) (metadata : JSONObject)
| StoreDelete (store : Store) (handle : string)
| AddIPMasq (pc : PluginController) (ip cidr vtep : string)
| DelIPMasq (pc : PluginController) (ip cidr vtep : string)
| HttpGet (url : string)
| GetNamesFromIPs (ips : list string)
| NetOutInitialize (p : NetOut)
| NetOutBulkInsertRules (p : NetOut) (rules : list NetOutRule)
| NetOutCleanup (p : NetOut)
| NetInInitialize (p : NetIn) (handle : string)
| NetInAddRule (p : NetIn) (handle : string) (hostPort containerPort : Z)
               (instanceAddress containerIP : string)
| NetInCleanup (p : NetIn) (handle : string)
| Print (r : Result030).

(** What a call answered. *)
Inductive Answer :=
| AErr (err : option error)
| AResult (r : error + RawResult)
| AContainer (c : Container) (err : option error)
| AResponse (r : error + Response)
| ANames (r : error + list string).

Record Event := mkEvent {
  ev_call : Call;
  ev_answer : Answer
}.

Definition Trace := list Event.

(** The collaborators.  Those with an effect on the host read the trace of
    the invocation so far; decoding and address functions are pure. *)
Record Env := mkEnv {
  LoadWrapperConfig : string -> error + WrapperConfig;
  NewResultFromResult : RawResult -> error + Result030;
  UnmarshalMetadata : string -> error + JSONObject;
  ParseIP : string -> option IP;
  IsLinkLocalUnicast : IP -> bool;
  IPString : IP -> string;
  iptables_New : Trace -> option error;
  do_DelegateAdd : Trace -> PluginController -> JSONObject -> error + RawResult;
  do_DelegateDel : Trace -> PluginController -> JSONObject -> option error;
  do_StoreAdd : Trace -> Store -> string -> string -> JSONObject -> option error;
  do_StoreDelete : Trace -> Store -> string -> Container * option error;
  do_AddIPMasq : Trace -> PluginController -> string -> string -> string -> option error;
  do_DelIPMasq : Trace -> PluginController -> string -> string -> string -> option error;
  do_HttpGet : Trace -> string -> error + Response;
  do_GetNamesFromIPs : Trace -> list string -> error + list string;
  do_NetOutInitialize : Trace -> NetOut -> option error;
  do_NetOutBulkInsertRules : Trace -> NetOut -> list NetOutRule -> option error;
  do_NetOutCleanup : Trace -> NetOut -> option error;
  do_NetInInitialize : Trace -> NetIn -> string -> option error;
  do_NetInAddRule : Trace -> NetIn -> string -> Z -> Z -> string -> string -> option error;
  do_NetInCleanup : Trace -> NetIn -> string -> option error;
  do_Print : Trace -> Result030 -> option error
}.

(** ** The monad of an invocation *)

Record World := mkWorld {
  trace : Trace;
  stderr : list string
}.

Definition empty_world : World := mkWorld [] [].

(** How a Go function that returns [error] ends: normally with a value,
    with a non-nil error, or by a run-time panic. *)
Inductive Res (A : Type) :=
| Ret (a : A)
| Throw (e : error)
| Panic (msg : string).

Arguments Ret {A} a.
Arguments Throw {A} e.
Arguments Panic {A} msg.

Definition M (A : Type) := World -> Res A * World.

Definition ret {A} (a : A) : M A := fun w => (Ret a, w).

Definition throw {A} (e : error) : M A := fun w => (Throw e, w).

Definition panic {A} (msg : string) : M A := fun w => (Panic msg, w).

Definition bind {A B} (m : M A) (k : A -> M B) : M B :=
  fun w =>
    match m w with
    | (Ret a, w') => k a w'
    | (Throw e, w') => (Throw e, w')
    | (Panic msg, w') => (Panic msg, w')
    end.

Notation "x <- m ;; k" := (bind m (fun x => k))
  (at level 61, m at next level, right associativity).
Notation "m ;; k" := (bind m (fun _ => k))
  (at level 61, right associativity).

(** [fmt.Fprintf(os.Stderr, ...)] and [fmt.Fprint(os.Stderr, ...)]. *)
Definition log (s : string) : M unit :=
  fun w => (Ret tt, mkWorld (trace w) (stderr w ++ [s])).

(** A call whose answer is [f] of the trace so far; the event is appended. *)
Definition perform {A} (f : Trace -> A) (c : Call) (ans : A -> Answer) : M A :=
  fun w =>
    let a := f (trace w) in
    (Ret a, mkWorld (trace w ++ [mkEvent c (ans a)]) (stderr w)).

(** [if err != nil { return wrap(err) }] after a call with two results. *)
Definition orReturn {A} (m : M (error + A)) (wrap : error -> error) : M A :=
  r <- m ;;
  match r with
  | inl err => throw (wrap err)
  | inr a => ret a
  end.

(** The same after a call that returns only an error. *)
Definition orReturnErr (m : M (option error)) (wrap : error -> error) : M unit :=
  r <- m ;;
  match r with
  | Some err => throw (wrap err)
  | None => ret tt
  end.

(** [if err != nil { fmt.Fprintf(os.Stderr, prefix, err) }]: log and go on. *)
Definition orLog (m : M (option error)) (wrap : error -> string) : M unit :=
  r <- m ;;
  match r with
  | Some err => log (wrap err)
  | None => ret tt
  end.

(** [%d] and [%v] of an integer. *)
Definition fmt_d (z : Z) : string := NilZero.string_of_int (Z.to_int z).

Section Plugin.

Variable E : Env.

(** ** Collaborator calls *)

Definition call_DelegateAdd pc delegate : M (error + RawResult) :=
  perform (fun t => do_DelegateAdd E t pc delegate) (DelegateAdd pc delegate) AResult.

Definition call_DelegateDel pc delegate : M (option error) :=
  perform (fun t => do_DelegateDel E t pc delegate) (DelegateDel pc delegate) AErr.

Definition call_StoreAdd store handle ip metadata : M (option error) :=
  perform (fun t => do_StoreAdd E t store handle ip metadata)
          (StoreAdd store handle ip metadata) AErr.

Definition call_StoreDelete store handle : M (Container * option error) :=
  perform (fun t => do_StoreDelete E t store handle) (StoreDelete store handle)
          (fun r => AContainer (fst r) (snd r)).

Definition call_AddIPMasq pc ip cidr vtep : M (option error) :=
  perform (fun t => do_AddIPMasq E t pc ip cidr vtep) (AddIPMasq pc ip cidr vtep) AErr.

Definition call_DelIPMasq pc ip cidr vtep : M (option error) :=
  perform (fun t => do_DelIPMasq E t pc ip cidr vtep) (DelIPMasq pc ip cidr vtep) AErr.

Definition call_HttpGet url : M (error + Response) :=
  perform (fun t => do_HttpGet E t url) (HttpGet url) AResponse.

Definition call_GetNamesFromIPs ips : M (error + list string) :=
  perform (fun t => do_GetNamesFromIPs E t ips) (GetNamesFromIPs ips) ANames.

Definition call_NetOutInitialize p : M (option error) :=
  perform (fun t => do_NetOutInitialize E t p) (NetOutInitialize p) AErr.

Definition call_NetOutBulkInsertRules p rules : M (option error) :=
  perform (fun t => do_NetOutBulkInsertRules E t p rules)
          (NetOutBulkInsertRules p rules) AErr.

Definition call_NetOutCleanup p : M (option error) :=
  perform (fun t => do_NetOutCleanup E t p) (NetOutCleanup p) AErr.

Definition call_NetInInitialize p handle : M (option error) :=
  perform (fun t => do_NetInInitialize E t p handle) (NetInInitialize p handle) AErr.

Definition call_NetInAddRule p handle hostPort containerPort instanceAddress containerIP
  : M (option error) :=
  perform (fun t => do_NetInAddRule E t p handle hostPort containerPort
                                    instanceAddress containerIP)
          (NetInAddRule p handle hostPort containerPort instanceAddress containerIP)
          AErr.

Definition call_NetInCleanup p handle : M (option error) :=
  perform (fun t => do_NetInCleanup E t p handle) (NetInCleanup p handle) AErr.

Definition call_Print r : M (option error) :=
  perform (fun t => do_Print E t r) (Print r) AErr.

(** ** [newPluginController] *)

Definition newPluginController (iptablesLockFile : string) : M (error + PluginController) :=
  r <- perform (iptables_New E) IptablesNew AErr ;;
  match r with
  | Some err => ret (inl err)
  | None =>
      let lockedIPTables := mkLockedIPTables iptablesLockFile in
      ret (inr (mkPluginController lockedIPTables))
  end.

(** ** [getLocalDNSServers] *)

Definition dquote : string := String (ascii_of_nat 34) EmptyString.

Definition invalidDNSServer (entry : string) : error :=
  ("invalid DNS server " ++ dquote ++ entry ++ dquote
   ++ ", must be valid IP address")%string.

Fixpoint getLocalDNSServers_loop (allDNSServers localDNSServers : list string)
  : error + list string :=
  match allDNSServers with
  | [] => inr localDNSServers
  | entry :: rest =>
      match ParseIP E entry with
      | None => inl (invalidDNSServer entry)
      | Some dnsIP =>
          if IsLinkLocalUnicast E dnsIP
          then getLocalDNSServers_loop rest (localDNSServers ++ [entry])
          else getLocalDNSServers_loop rest localDNSServers
      end
  end.

Definition getLocalDNSServers (allDNSServers : list string) : error + list string :=
  getLocalDNSServers_loop allDNSServers [].

(** ** [cmdAdd] *)

(** The [for _, netIn := range portMappings] loop of [cmdAdd]. *)
Fixpoint cmdAdd_portMappings (netinProvider : NetIn) (containerID instanceAddress
  containerIP : string) (portMappings : list PortMapping) : M unit :=
  match portMappings with
  | [] => ret tt
  | netIn :: rest =>
      if HostPort netIn <=? 0
      then throw ("cannot allocate port " ++ fmt_d (HostPort netIn))%string
      else
        orReturnErr
          (call_NetInAddRule netinProvider containerID (HostPort netIn)
             (ContainerPort netIn) instanceAddress containerIP)
          (fun err => "adding netin rule: " ++ err)%string ;;
        cmdAdd_portMappings netinProvider containerID instanceAddress containerIP rest
  end.

Definition cmdAdd (args : CmdArgs) : M unit :=
  cfg <- orReturn (ret (LoadWrapperConfig E (StdinData args))) (fun err => err) ;;

  pluginController <-
    orReturn (newPluginController (IPTablesLockFile cfg)) (fun err => err) ;;

  result <- orReturn (call_DelegateAdd pluginController (Delegate cfg))
              (fun err => "delegate call: " ++ err)%string ;;

  result030 <- orReturn (ret (NewResultFromResult E result))
                 (fun err => "converting result from delegate plugin: " ++ err)%string ;;

  (* result030.IPs[0].Address.IP: indexing an empty slice panics, and so
     does reading a field through a nil entry *)
  containerIP <- match IPs result030 with
                 | [] => panic "index out of range [0] with length 0"
                 | None :: _ => panic "invalid memory address or nil pointer dereference"
                 | Some ip0 :: _ => ret (IPNet_IP (Address ip0))
                 end ;;

  let store := {|
    LockerFile := Datastore cfg ++ "_lock";
    DataFilePath := Datastore cfg;
    VersionFilePath := Datastore cfg ++ "_version";
    LockedFilePath := Datastore cfg ++ "_lock";
    FileOwner := "vcap";
    FileGroup := "vcap" |}%string in

  cniAddData_Metadata <-
    orReturn (ret (UnmarshalMetadata E (StdinData args))) (fun err => err) ;;

  err <- call_StoreAdd store (ContainerID args) (IPString E containerIP)
           cniAddData_Metadata ;;
  match err with
  | Some err =>
      let storeErr := ("store add: " ++ err)%string in
      log storeErr ;;
      log "cleaning up from error" ;;
      orLog (call_DelIPMasq pluginController (IPString E containerIP)
               (NoMasqueradeCIDRRange cfg) (VTEPName cfg))
            (fun err => "during cleanup: removing IP masq: " ++ err)%string ;;
      throw storeErr
  | None => ret tt
  end ;;

  resp <- orReturn
            (call_HttpGet ("http://" ++ PolicyAgentForcePollAddress cfg
                           ++ "/force-policy-poll-cycle")%string)
            (fun err => err) ;;
  (if negb (StatusCode resp =? StatusOK)
   then throw ("vpa response code: " ++ fmt_d (StatusCode resp)
               ++ " with message: " ++ Body resp)%string
   else ret tt) ;;

  localDNSServers <- orReturn (ret (getLocalDNSServers (DNSServers cfg)))
                       (fun err => err) ;;

  interfaceNames <-
    (if (0 <? Z.of_nat (length (TemporaryUnderlayInterfaceNames cfg)))
     then ret (TemporaryUnderlayInterfaceNames cfg)
     else orReturn (call_GetNamesFromIPs (UnderlayIPs cfg))
            (fun err => "looking up interface names: " ++ err)%string) ;;

  (if String.eqb (ContainerID args) EmptyString
   then throw "invalid Container ID"
   else ret tt) ;;

  let netOutProvider := {|
    NetOut_ChainNamer := {| MaxLength := 28 |};
    NetOut_IPTables := PC_IPTables pluginController;
    NetOut_ASGLogging := IPTablesASGLogging cfg;
    NetOut_C2CLogging := IPTablesC2CLogging cfg;
    NetOut_DeniedLogsPerSec := IPTablesDeniedLogsPerSec cfg;
    NetOut_AcceptedUDPLogsPerSec := IPTablesAcceptedUDPLogsPerSec cfg;
    NetOut_IngressTag := IngressTag cfg;
    NetOut_VTEPName := VTEPName cfg;
    NetOut_HostInterfaceNames := interfaceNames;
    NetOut_ContainerHandle := ContainerID args;
    NetOut_ContainerIP := IPString E containerIP;
    NetOut_HostTCPServices := HostTCPServices cfg;
    NetOut_DNSServers := localDNSServers |} in
  orReturnErr (call_NetOutInitialize netOutProvider)
    (fun err => "initialize net out: " ++ err)%string ;;

  let netinProvider := {|
    NetIn_ChainNamer := {| MaxLength := 28 |};
    NetIn_IPTables := PC_IPTables pluginController;
    NetIn_IngressTag := IngressTag cfg;
    NetIn_HostInterfaceNames := interfaceNames |} in
  (* err = netinProvider.Initialize(args.ContainerID): assigned, never read *)
  _ <- call_NetInInitialize netinProvider (ContainerID args) ;;

  let portMappings := PortMappings (RuntimeCfg cfg) in
  cmdAdd_portMappings netinProvider (ContainerID args) (InstanceAddress cfg)
    (IPString E containerIP) portMappings ;;

  let netOutRules := NetOutRules (RuntimeCfg cfg) in
  orReturnErr (call_NetOutBulkInsertRules netOutProvider netOutRules)
    (fun err => "bulk insert: " ++ err)%string ;;

  orReturnErr (call_AddIPMasq pluginController (IPString E containerIP)
                 (NoMasqueradeCIDRRange cfg) (VTEPName cfg))
    (fun err => "error setting up default ip masq rule: " ++ err)%string ;;

  let result030' := {|
    CNIVersion := CNIVersion result030;
    Interfaces := Interfaces result030;
    IPs := IPs result030;
    Routes := Routes result030;
    ResultDNS := {|
      Nameservers := DNSServers cfg;
      Domain := Domain (ResultDNS result030);
      Search := Search (ResultDNS result030);
      Options := Options (ResultDNS result030) |} |} in
  orReturnErr (call_Print result030') (fun err => err).

(** ** [cmdDel] *)

Definition cmdDel (args : CmdArgs) : M unit :=
  n <- orReturn (ret (LoadWrapperConfig E (StdinData args))) (fun err => err) ;;

  let store := {|
    LockerFile := Datastore n ++ "_lock";
    DataFilePath := Datastore n;
    VersionFilePath := Datastore n ++ "_version";
    LockedFilePath := EmptyString;
    FileOwner := EmptyString;
    FileGroup := EmptyString |}%string in

  r <- call_StoreDelete store (ContainerID args) ;;
  let container := fst r in
  orLog (ret (snd r)) (fun err => "store delete: " ++ err)%string ;;

  pluginController <-
    orReturn (newPluginController (IPTablesLockFile n)) (fun err => err) ;;

  orLog (call_DelegateDel pluginController (Delegate n))
    (fun err => "delegate delete: " ++ err)%string ;;

  let netInProvider := {|
    NetIn_ChainNamer := {| MaxLength := 28 |};
    NetIn_IPTables := PC_IPTables pluginController;
    NetIn_IngressTag := IngressTag n;
    NetIn_HostInterfaceNames := [] |} in

  orLog (call_NetInCleanup netInProvider (ContainerID args))
    (fun err => "net in cleanup: " ++ err)%string ;;

  interfaceNames <-
    (if (0 <? Z.of_nat (length (TemporaryUnderlayInterfaceNames n)))
     then ret (TemporaryUnderlayInterfaceNames n)
     else orReturn (call_GetNamesFromIPs (UnderlayIPs n))
            (fun err => "looking up interface names: " ++ err)%string) ;;

  let netOutProvider := {|
    NetOut_ChainNamer := {| MaxLength := 28 |};
    NetOut_IPTables := PC_IPTables pluginController;
    NetOut_ASGLogging := false;
    NetOut_C2CLogging := false;
    NetOut_DeniedLogsPerSec := 0;
    NetOut_AcceptedUDPLogsPerSec := 0;
    NetOut_IngressTag := EmptyString;
    NetOut_VTEPName := EmptyString;
    NetOut_HostInterfaceNames := interfaceNames;
    NetOut_ContainerHandle := ContainerID args;
    NetOut_ContainerIP := Container_IP container;
    NetOut_HostTCPServices := [];
    NetOut_DNSServers := [] |} in

  orLog (call_NetOutCleanup netOutProvider)
    (fun err => "net out cleanup: " ++ err)%string ;;

  orLog (call_DelIPMasq pluginController (Container_IP container)
           (NoMasqueradeCIDRRange n) (VTEPName n))
    (fun err => "removing IP masq: " ++ err)%string ;;

  ret tt.

End Plugin.

(** ** Views of a trace *)

(** The error a call answered with, if any. *)
Definition answer_err (a : Answer) : option error :=
  match a with
  | AErr err => err
  | AResult (inl err) => Some err
  | AResult (inr _) => None
  | AContainer _ err => err
  | AResponse (inl err) => Some err
  | AResponse (inr _) => None
  | ANames (inl err) => Some err
  | ANames (inr _) => None
  end.

(** A call went well: no error, and for the policy agent a 200 status. *)
Definition answer_ok (a : Answer) : bool :=
  match a with
  | AResponse (inr resp) => StatusCode resp =? StatusOK
  | _ => match answer_err a with None => true | Some _ => false end
  end.

Definition event_ok (ev : Event) : bool := answer_ok (ev_answer ev).

(** The collaborator operation behind a call, without its arguments. *)
Inductive Step :=
| SIptablesNew | SDelegateAdd | SDelegateDel | SStoreAdd | SStoreDelete
| SAddIPMasq | SDelIPMasq | SHttpGet | SGetNamesFromIPs
| SNetOutInitialize | SNetOutBulkInsertRules | SNetOutCleanup
| SNetInInitialize | SNetInAddRule | SNetInCleanup | SPrint.

Definition step_of (c : Call) : Step :=
  match c with
  | IptablesNew => SIptablesNew
  | DelegateAdd _ _ => SDelegateAdd
  | DelegateDel _ _ => SDelegateDel
  | StoreAdd _ _ _ _ => SStoreAdd
  | StoreDelete _ _ => SStoreDelete
  | AddIPMasq _ _ _ _ => SAddIPMasq
  | DelIPMasq _ _ _ _ => SDelIPMasq
  | HttpGet _ => SHttpGet
  | GetNamesFromIPs _ => SGetNamesFromIPs
  | NetOutInitialize _ => SNetOutInitialize
  | NetOutBulkInsertRules _ _ => SNetOutBulkInsertRules
  | NetOutCleanup _ => SNetOutCleanup
  | NetInInitialize _ _ => SNetInInitialize
  | NetInAddRule _ _ _ _ _ _ => SNetInAddRule
  | NetInCleanup _ _ => SNetInCleanup
  | Print _ => SPrint
  end.

Definition Step_eqb (a b : Step) : bool :=
  match a, b with
  | SIptablesNew, SIptablesNew | SDelegateAdd, SDelegateAdd
  | SDelegateDel, SDelegateDel | SStoreAdd, SStoreAdd
  | SStoreDelete, SStoreDelete | SAddIPMasq, SAddIPMasq
  | SDelIPMasq, SDelIPMasq | SHttpGet, SHttpGet
  | SGetNamesFromIPs, SGetNamesFromIPs | SNetOutInitialize, SNetOutInitialize
  | SNetOutBulkInsertRules, SNetOutBulkInsertRules
  | SNetOutCleanup, SNetOutCleanup | SNetInInitialize, SNetInInitialize
  | SNetInAddRule, SNetInAddRule | SNetInCleanup, SNetInCleanup
  | SPrint, SPrint => true
  | _, _ => false
  end.

(** The steps of a trace with the error each ended in. *)
Fixpoint outline (t : Trace) : list (Step * option error) :=
  match t with
  | [] => []
  | ev :: t' => (step_of (ev_call ev), answer_err (ev_answer ev)) :: outline t'
  end.

(** The events of one kind. *)
Fixpoint only (s : Step) (t : Trace) : Trace :=
  match t with
  | [] => []
  | ev :: t' =>
      if Step_eqb (step_of (ev_call ev)) s then ev :: only s t' else only s t'
  end.

(** The (host port, container port) pairs of the ingress rules requested. *)
Fixpoint addRule_ports (t : Trace) : list (Z * Z) :=
  match t with
  | [] => []
  | ev :: t' =>
      match ev_call ev with
      | NetInAddRule _ _ hp cp _ _ => (hp, cp) :: addRule_ports t'
      | _ => addRule_ports t'
      end
  end.

Definition ports_of (m : PortMapping) : Z * Z := (HostPort m, ContainerPort m).

(** The event of one [AddRule] call of the loop. *)
Definition addRule_event (p : NetIn) (handle ia ip : string) (err : option error)
  (m : PortMapping) : Event :=
  mkEvent (NetInAddRule p handle (HostPort m) (ContainerPort m) ia ip) (AErr err).


(** The operations of a trace, in order. *)
Fixpoint steps (t : Trace) : list Step :=
  match t with
  | [] => []
  | ev :: t' => step_of (ev_call ev) :: steps t'
  end.

(** The events that follow the first event of kind [s]. *)
Fixpoint events_after (s : Step) (t : Trace) : Trace :=
  match t with
  | [] => []
  | ev :: t' => if Step_eqb (step_of (ev_call ev)) s then t' else events_after s t'
  end.

(** The events that precede the first event of kind [s]. *)
Fixpoint events_before (s : Step) (t : Trace) : Trace :=
  match t with
  | [] => []
  | ev :: t' =>
      if Step_eqb (step_of (ev_call ev)) s then [] else ev :: events_before s t'
  end.

(** The container address a call was given, where it takes one. *)
Definition call_containerIPs (c : Call) : list string :=
  match c with
  | StoreAdd _ _ ip _ => [ip]
  | AddIPMasq _ ip _ _ => [ip]
  | DelIPMasq _ ip _ _ => [ip]
  | NetOutInitialize p => [NetOut_ContainerIP p]
  | NetOutBulkInsertRules p _ => [NetOut_ContainerIP p]
  | NetOutCleanup p => [NetOut_ContainerIP p]
  | NetInAddRule _ _ _ _ _ ip => [ip]
  | _ => []
  end.


(** The DNS servers a NetOut call carries. *)
Definition call_dnsServers (c : Call) : list (list string) :=
  match c with
  | NetOutInitialize p => [NetOut_DNSServers p]
  | NetOutBulkInsertRules p _ => [NetOut_DNSServers p]
  | _ => []
  end.

(** A call to one of the two firewall chain managers, or to the masquerade
    toggle's add. *)
Definition firewall_step (s : Step) : bool :=
  match s with
  | SNetOutInitialize | SNetOutBulkInsertRules | SNetOutCleanup
  | SNetInInitialize | SNetInAddRule | SNetInCleanup | SAddIPMasq => true
  | _ => false
  end.

(** ** DNS filtering, as a predicate on entries *)

Definition parses (E : Env) (entry : string) : bool :=
  match ParseIP E entry with
  | Some _ => true
  | None => false
  end.

Definition isLocalDNS (E : Env) (entry : string) : bool :=
  match ParseIP E entry with
  | Some dnsIP => IsLinkLocalUnicast E dnsIP
  | None => false
  end.

(** ** The policy-agent notification *)

(** The error [cmdAdd] builds from a response that is not 200. *)
Definition vpaError (resp : Response) : error :=
  ("vpa response code: " ++ fmt_d (StatusCode resp)
   ++ " with message: " ++ Body resp)%string.

Definition is2xx (code : Z) : bool := (200 <=? code) && (code <=? 299).

(** The reading under which any 2xx answer lets the Add go on: a 2xx answer
    of the policy agent is never what the Add reports as its error. *)
Definition any_2xx_continues (E : Env) (args : CmdArgs) : Prop :=
  forall url resp,
    In (mkEvent (HttpGet url) (AResponse (inr resp)))
       (trace (snd (cmdAdd E args empty_world))) ->
    is2xx (StatusCode resp) = true ->
    fst (cmdAdd E args empty_world) <> Throw (vpaError resp).

(** ** Del as pure best effort *)

(** The reading under which only a config-load failure is fatal to Del. *)
Definition del_fails_only_on_config (E : Env) (args : CmdArgs) : Prop :=
  forall cfg,
    LoadWrapperConfig E (StdinData args) = inr cfg ->
    fst (cmdDel E args empty_world) = Ret tt.

(** What Del writes to the error stream for a step that failed. *)
Definition del_log (ev : Event) : list string :=
  match answer_err (ev_answer ev) with
  | None => []
  | Some err =>
      match ev_call ev with
      | StoreDelete _ _ => [("store delete: " ++ err)%string]
      | DelegateDel _ _ => [("delegate delete: " ++ err)%string]
      | NetInCleanup _ _ => [("net in cleanup: " ++ err)%string]
      | NetOutCleanup _ => [("net out cleanup: " ++ err)%string]
      | DelIPMasq _ _ _ _ => [("removing IP masq: " ++ err)%string]
      | _ => []
      end
  end.

(** The two Del steps whose failure is returned: building the plugin
    controller and looking up the interface names. *)
Definition del_fatal (ev : Event) : bool :=
  match ev_call ev, answer_err (ev_answer ev) with
  | IptablesNew, Some _ => true
  | GetNamesFromIPs _, Some _ => true
  | _, _ => false
  end.

(** ** The empty container handle *)

(** The reading under which a successful delegate call is all it takes: an
    Add with the empty handle whose delegate call succeeded has written to
    the store and notified the policy agent, and fails with the invalid
    Container ID error. *)
Definition empty_handle_always_rejected_late (E : Env) (args : CmdArgs) : Prop :=
  ContainerID args = EmptyString ->
  (exists pc d raw,
     In (mkEvent (DelegateAdd pc d) (AResult (inr raw)))
        (trace (snd (cmdAdd E args empty_world)))) ->
  In SStoreAdd (steps (trace (snd (cmdAdd E args empty_world)))) /\
  In SHttpGet (steps (trace (snd (cmdAdd E args empty_world)))) /\
  fst (cmdAdd E args empty_world) = Throw "invalid Container ID".

(** ** Chain names *)









(** What shows that an Add went on after the policy-agent notification: it
    is the next steps that decide the outcome.  The DNS list is filtered; the
    interface names are looked up unless the config overrides them; the
    container handle is checked; NetOut is initialized. *)
Definition add_goes_on (E : Env) (args : CmdArgs) (cfg : WrapperConfig)
  (r : Res unit) (after : Trace) : Prop :=
  match getLocalDNSServers E (DNSServers cfg) with
  | inl err => r = Throw err /\ after = []
  | inr _ =>
      match TemporaryUnderlayInterfaceNames cfg with
      | [] =>
          exists ans rest,
            after = mkEvent (GetNamesFromIPs (UnderlayIPs cfg)) ans :: rest
      | _ :: _ =>
          if String.eqb (ContainerID args) EmptyString
          then r = Throw "invalid Container ID" /\ after = []
          else exists p ans rest, after = mkEvent (NetOutInitialize p) ans :: rest
      end
  end.

(** Two results that differ at most in their DNS nameserver list. *)
Definition same_but_nameservers (a b : Result030) : Prop :=
  CNIVersion a = CNIVersion b /\
  Interfaces a = Interfaces b /\
  IPs a = IPs b /\
  Routes a = Routes b /\
  Domain (ResultDNS a) = Domain (ResultDNS b) /\
  Search (ResultDNS a) = Search (ResultDNS b) /\
  Options (ResultDNS a) = Options (ResultDNS b).

(** ** Scripted hosts

    Concrete environments for running the two verbs: a host answers every
    call from a fixed script, and a fault plan says which calls fail. *)

Module Sample.

Definition parseIP (s : string) : option IP :=
  if String.eqb s "169.254.0.2" then Some [169; 254; 0; 2]
  else if String.eqb s "8.8.8.8" then Some [8; 8; 8; 8]
  else if String.eqb s "fe80::1" then Some [254; 128; 0; 0; 0; 0; 0; 0; 0; 0; 0; 0; 0; 0; 0; 1]
  else None.

(** As Go's [IP.IsLinkLocalUnicast]: 169.254.0.0/16 and fe80::/10. *)
Definition isLinkLocalUnicast (ip : IP) : bool :=
  match ip with
  | [a; b; _; _] => (a =? 169) && (b =? 254)
  | a :: b :: rest =>
      (Nat.eqb (length rest) 14) && (a =? 254) && (Z.land b 192 =? 128)
  | _ => false
  end.

Definition ipString (ip : IP) : string :=
  match ip with
  | [a; b; c; d] => fmt_d a ++ "." ++ fmt_d b ++ "." ++ fmt_d c ++ "." ++ fmt_d d
  | _ => "?"
  end%string.

Definition containerAddr : IPConfig :=
  {| Version := "4";
     Address := {| IPNet_IP := [10; 255; 30; 4]; IPNet_Mask := [255; 255; 255; 255] |};
     Gateway := [169; 254; 0; 1] |}.

Definition delegateResult : Result030 :=
  {| CNIVersion := "0.3.1";
     Interfaces := ["eth0"];
     IPs := [Some containerAddr];
     Routes := ["0.0.0.0/0"];
     ResultDNS := {| Nameservers := ["1.1.1.1"]; Domain := "apps.internal";
                     Search := ["apps.internal"]; Options := ["ndots:1"] |} |}.

Definition config (dns : list string) (pms : list PortMapping) (override : list string)
  : WrapperConfig :=
  {| Datastore := "/var/vcap/data/container-metadata/store.json";
     IPTablesLockFile := "/var/vcap/data/garden-cni/iptables.lock";
     Delegate := "{cniVersion:0.3.1,type:silk}";
     InstanceAddress := "10.0.16.5";
     NoMasqueradeCIDRRange := "10.255.0.0/16";
     IPTablesASGLogging := false;
     IPTablesC2CLogging := false;
     IPTablesDeniedLogsPerSec := 1;
     IPTablesAcceptedUDPLogsPerSec := 100;
     IngressTag := "ffff0000";
     VTEPName := "silk-vtep";
     DNSServers := dns;
     HostTCPServices := [];
     UnderlayIPs := ["10.0.16.5"];
     TemporaryUnderlayInterfaceNames := override;
     PolicyAgentForcePollAddress := "127.0.0.1:8723";
     RuntimeCfg := {| PortMappings := pms; NetOutRules := ["allow tcp 0.0.0.0/0"] |} |}.

(** A host: the config the payload decodes to, the status the policy agent
    answers with, and the calls that fail. *)
Record Host := mkHost {
  host_config : error + WrapperConfig;
  host_status : Z;
  host_fault : Call -> option error
}.

Definition answer (h : Host) (c : Call) : option error := host_fault h c.

Definition withValue {A} (o : option error) (a : A) : error + A :=
  match o with
  | Some err => inl err
  | None => inr a
  end.

Definition env (h : Host) : Env :=
  {| LoadWrapperConfig := fun _ => host_config h;
     NewResultFromResult := fun _ => inr delegateResult;
     UnmarshalMetadata := fun _ => inr "{app_id:a1}";
     ParseIP := parseIP;
     IsLinkLocalUnicast := isLinkLocalUnicast;
     IPString := ipString;
     iptables_New := fun _ => answer h IptablesNew;
     do_DelegateAdd := fun _ pc d => withValue (answer h (DelegateAdd pc d)) "{ips:[10.255.30.4/32]}";
     do_DelegateDel := fun _ pc d => answer h (DelegateDel pc d);
     do_StoreAdd := fun _ s hd ip md => answer h (StoreAdd s hd ip md);
     do_StoreDelete := fun _ s hd =>
       match answer h (StoreDelete s hd) with
       | Some err => ({| Container_Handle := EmptyString; Container_IP := EmptyString;
                         Container_Metadata := EmptyString |}, Some err)
       | None => ({| Container_Handle := hd; Container_IP := "10.255.30.4";
                     Container_Metadata := "{app_id:a1}" |}, None)
       end;
     do_AddIPMasq := fun _ pc ip c v => answer h (AddIPMasq pc ip c v);
     do_DelIPMasq := fun _ pc ip c v => answer h (DelIPMasq pc ip c v);
     do_HttpGet := fun _ url =>
       withValue (answer h (HttpGet url))
                 {| StatusCode := host_status h; Body := "policy agent says hi" |};
     do_GetNamesFromIPs := fun _ ips => withValue (answer h (GetNamesFromIPs ips)) ["eth0"];
     do_NetOutInitialize := fun _ p => answer h (NetOutInitialize p);
     do_NetOutBulkInsertRules := fun _ p rs => answer h (NetOutBulkInsertRules p rs);
     do_NetOutCleanup := fun _ p => answer h (NetOutCleanup p);
     do_NetInInitialize := fun _ p hd => answer h (NetInInitialize p hd);
     do_NetInAddRule := fun _ p hd hp cp ia ip => answer h (NetInAddRule p hd hp cp ia ip);
     do_NetInCleanup := fun _ p hd => answer h (NetInCleanup p hd);
     do_Print := fun _ r => answer h (Print r) |}.

Definition noFault : Call -> option error := fun _ => None.

Definition healthy (cfg : WrapperConfig) : Host :=
  {| host_config := inr cfg; host_status := 200; host_fault := noFault |}.

Definition args (handle : string) : CmdArgs :=
  {| ContainerID := handle; StdinData := "{...}" |}.

(** Failing exactly the calls of one kind, with one message. *)
Definition failing (s : Step) (msg : error) : Call -> option error :=
  fun c => if Step_eqb (step_of c) s then Some msg else None.

Definition dns : list string := ["169.254.0.2"; "8.8.8.8"; "fe80::1"].

(** One port mapping, no interface override. *)
Definition webConfig : WrapperConfig := config dns [mkPortMapping 8080 80] [].

(** NetIn.Initialize fails; everything else works. *)
Definition ingressInitFails : Host :=
  {| host_config := inr webConfig; host_status := 200;
     host_fault := failing SNetInInitialize "iptables: chain already exists" |}.

(** The same fault for a container with no port mapping. *)
Definition ingressInitFailsNoPorts : Host :=
  {| host_config := inr (config dns [] []); host_status := 200;
     host_fault := failing SNetInInitialize "iptables: resource unavailable" |}.

(** The interface lookup fails. *)
Definition lookupFails : Host :=
  {| host_config := inr webConfig; host_status := 200;
     host_fault := failing SGetNamesFromIPs "no interface for 10.0.16.5" |}.

(** Every Del step that is only logged fails (the store is unwritable, the
    delegate is gone, the rule table is busy). *)
Definition degraded : Host :=
  {| host_config := inr webConfig; host_status := 200;
     host_fault := fun c =>
       match step_of c with
       | SStoreDelete => Some "open store.json: permission denied"
       | SDelegateDel => Some "delegate: container not found"
       | SNetInCleanup => Some "iptables: no chain by that name"
       | SNetOutCleanup => Some "iptables: no chain by that name"
       | SDelIPMasq => Some "iptables: bad rule"
       | _ => None
       end |}.

(** The store write fails, and so does the masquerade cleanup. *)
Definition storeFails : Host :=
  {| host_config := inr webConfig; host_status := 200;
     host_fault := fun c =>
       match step_of c with
       | SStoreAdd => Some "duplicate handle"
       | SDelIPMasq => Some "iptables: bad rule"
       | _ => None
       end |}.

(** The policy agent answers 204 No Content. *)
Definition agentNoContent : Host :=
  {| host_config := inr webConfig; host_status := 204; host_fault := noFault |}.

(** The policy agent answers 500. *)
Definition agentError : Host :=
  {| host_config := inr webConfig; host_status := 500; host_fault := noFault |}.

(** Three mappings, the last with host port 0. *)
Definition badPortConfig : WrapperConfig :=
  config dns [mkPortMapping 8080 80; mkPortMapping 8443 443; mkPortMapping 0 22] [].

(** An entry of the DNS list is no address. *)
Definition badDNSConfig : WrapperConfig :=
  config ["169.254.0.2"; "dns.example.com"; "8.8.8.8"] [mkPortMapping 8080 80] [].


(** The runs the theorems below look at. *)
Definition ingressInitFailsRun : Res unit * World :=
  cmdAdd (env ingressInitFails) (args "c1") empty_world.

Definition ingressInitFailsNoPortsRun : Res unit * World :=
  cmdAdd (env ingressInitFailsNoPorts) (args "c2") empty_world.

Definition healthyRun : Res unit * World :=
  cmdAdd (env (healthy webConfig)) (args "c1") empty_world.

Definition storeFailsRun : Res unit * World :=
  cmdAdd (env storeFails) (args "c1") empty_world.

Definition agentErrorRun : Res unit * World :=
  cmdAdd (env agentError) (args "c1") empty_world.

Definition badPortRun : Res unit * World :=
  cmdAdd (env (healthy badPortConfig)) (args "c1") empty_world.

Definition badDNSRun : Res unit * World :=
  cmdAdd (env (healthy badDNSConfig)) (args "c1") empty_world.

Definition emptyHandleRun : Res unit * World :=
  cmdAdd (env (healthy webConfig)) (args EmptyString) empty_world.

Definition healthyDelRun : Res unit * World :=
  cmdDel (env (healthy webConfig)) (args "c1") empty_world.

Definition degradedDelRun : Res unit * World :=
  cmdDel (env degraded) (args "c1") empty_world.

(** The store record that [cmdAdd] builds for [webConfig]. *)
Definition addStore : Store :=
  {| LockerFile := "/var/vcap/data/container-metadata/store.json_lock";
     DataFilePath := "/var/vcap/data/container-metadata/store.json";
     VersionFilePath := "/var/vcap/data/container-metadata/store.json_version";
     LockedFilePath := "/var/vcap/data/container-metadata/store.json_lock";
     FileOwner := "vcap";
     FileGroup := "vcap" |}.

Definition pollURL : string := "http://127.0.0.1:8723/force-policy-poll-cycle".

Definition agentAnswer (code : Z) : Response :=
  {| StatusCode := code; Body := "policy agent says hi" |}.

End Sample.


(** ** More views of a trace *)

(** The prefix that [cmdAdd] puts before the error of a failed call. *)
Definition add_error_prefix (s : Step) : string :=
  match s with
  | SDelegateAdd => "delegate call: "
  | SStoreAdd => "store add: "
  | SGetNamesFromIPs => "looking up interface names: "
  | SNetOutInitialize => "initialize net out: "
  | SNetInAddRule => "adding netin rule: "
  | SNetOutBulkInsertRules => "bulk insert: "
  | SAddIPMasq => "error setting up default ip masq rule: "
  | _ => EmptyString
  end.

(** The operations that take state down. *)
Definition teardown_step (s : Step) : bool :=
  match s with
  | SStoreDelete | SDelegateDel | SNetInCleanup | SNetOutCleanup => true
  | _ => false
  end.

(** The operations that set state up, and the notification and the print. *)
Definition setup_step (s : Step) : bool :=
  match s with
  | SDelegateAdd | SStoreAdd | SAddIPMasq | SHttpGet | SNetOutInitialize
  | SNetOutBulkInsertRules | SNetInInitialize | SNetInAddRule | SPrint => true
  | _ => false
  end.

(** The container handle a call was given, where it takes one. *)
Definition call_handles (c : Call) : list string :=
  match c with
  | StoreAdd _ handle _ _ => [handle]
  | StoreDelete _ handle => [handle]
  | NetOutInitialize p => [NetOut_ContainerHandle p]
  | NetOutBulkInsertRules p _ => [NetOut_ContainerHandle p]
  | NetOutCleanup p => [NetOut_ContainerHandle p]
  | NetInInitialize _ handle => [handle]
  | NetInAddRule _ handle _ _ _ _ => [handle]
  | NetInCleanup _ handle => [handle]
  | _ => []
  end.

(** The lock file of the rule-table accessor that a call goes through. *)
Definition call_lockFiles (c : Call) : list string :=
  match c with
  | DelegateAdd pc _ => [LockFile (PC_IPTables pc)]
  | DelegateDel pc _ => [LockFile (PC_IPTables pc)]
  | AddIPMasq pc _ _ _ => [LockFile (PC_IPTables pc)]
  | DelIPMasq pc _ _ _ => [LockFile (PC_IPTables pc)]
  | NetOutInitialize p => [LockFile (NetOut_IPTables p)]
  | NetOutBulkInsertRules p _ => [LockFile (NetOut_IPTables p)]
  | NetOutCleanup p => [LockFile (NetOut_IPTables p)]
  | NetInInitialize p _ => [LockFile (NetIn_IPTables p)]
  | NetInAddRule p _ _ _ _ _ => [LockFile (NetIn_IPTables p)]
  | NetInCleanup p _ => [LockFile (NetIn_IPTables p)]
  | _ => []
  end.

(** The store a call works on. *)
Definition call_stores (c : Call) : list Store :=
  match c with
  | StoreAdd store _ _ _ => [store]
  | StoreDelete store _ => [store]
  | _ => []
  end.

(** The host interface names that a chain manager is given. *)
Definition call_interfaceNames (c : Call) : list (list string) :=
  match c with
  | NetOutInitialize p => [NetOut_HostInterfaceNames p]
  | NetOutBulkInsertRules p _ => [NetOut_HostInterfaceNames p]
  | NetOutCleanup p => [NetOut_HostInterfaceNames p]
  | NetInInitialize p _ => [NetIn_HostInterfaceNames p]
  | NetInAddRule p _ _ _ _ _ => [NetIn_HostInterfaceNames p]
  | NetInCleanup p _ => [NetIn_HostInterfaceNames p]
  | _ => []
  end.

(** The masquerade rule (controller, address, CIDR, VTEP) a call adds or
    removes. *)
Definition call_masqRules (c : Call)
  : list (PluginController * string * string * string) :=
  match c with
  | AddIPMasq pc ip cidr vtep => [(pc, ip, cidr, vtep)]
  | DelIPMasq pc ip cidr vtep => [(pc, ip, cidr, vtep)]
  | _ => []
  end.

(** The interface names that a lookup answered. *)
Definition looked_up_names (t : Trace) : list (list string) :=
  flat_map (fun ev => match ev_call ev, ev_answer ev with
                      | GetNamesFromIPs _, ANames (inr names) => [names]
                      | _, _ => []
                      end) t.

(** An event went well, or is the NetIn initialization, whose error
    [cmdAdd] does not read. *)
Definition event_ok_or_ingress_init (ev : Event) : bool :=
  event_ok ev || Step_eqb (step_of (ev_call ev)) SNetInInitialize.

(** ** More hosts *)

Module Edge.

(** An environment that differs from [E] in what the payload decodes to. *)
Definition withConfig (E : Env) (c : error + WrapperConfig) : Env :=
  {| LoadWrapperConfig := fun _ => c;
     NewResultFromResult := NewResultFromResult E;
     UnmarshalMetadata := UnmarshalMetadata E;
     ParseIP := ParseIP E;
     IsLinkLocalUnicast := IsLinkLocalUnicast E;
     IPString := IPString E;
     iptables_New := iptables_New E;
     do_DelegateAdd := do_DelegateAdd E;
     do_DelegateDel := do_DelegateDel E;
     do_StoreAdd := do_StoreAdd E;
     do_StoreDelete := do_StoreDelete E;
     do_AddIPMasq := do_AddIPMasq E;
     do_DelIPMasq := do_DelIPMasq E;
     do_HttpGet := do_HttpGet E;
     do_GetNamesFromIPs := do_GetNamesFromIPs E;
     do_NetOutInitialize := do_NetOutInitialize E;
     do_NetOutBulkInsertRules := do_NetOutBulkInsertRules E;
     do_NetOutCleanup := do_NetOutCleanup E;
     do_NetInInitialize := do_NetInInitialize E;
     do_NetInAddRule := do_NetInAddRule E;
     do_NetInCleanup := do_NetInCleanup E;
     do_Print := do_Print E |}.

(** An environment that differs from [E] in what the delegate's result
    normalises to. *)
Definition withResult (E : Env) (res : error + Result030) : Env :=
  {| LoadWrapperConfig := LoadWrapperConfig E;
     NewResultFromResult := fun _ => res;
     UnmarshalMetadata := UnmarshalMetadata E;
     ParseIP := ParseIP E;
     IsLinkLocalUnicast := IsLinkLocalUnicast E;
     IPString := IPString E;
     iptables_New := iptables_New E;
     do_DelegateAdd := do_DelegateAdd E;
     do_DelegateDel := do_DelegateDel E;
     do_StoreAdd := do_StoreAdd E;
     do_StoreDelete := do_StoreDelete E;
     do_AddIPMasq := do_AddIPMasq E;
     do_DelIPMasq := do_DelIPMasq E;
     do_HttpGet := do_HttpGet E;
     do_GetNamesFromIPs := do_GetNamesFromIPs E;
     do_NetOutInitialize := do_NetOutInitialize E;
     do_NetOutBulkInsertRules := do_NetOutBulkInsertRules E;
     do_NetOutCleanup := do_NetOutCleanup E;
     do_NetInInitialize := do_NetInInitialize E;
     do_NetInAddRule := do_NetInAddRule E;
     do_NetInCleanup := do_NetInCleanup E;
     do_Print := do_Print E |}.

Definition healthyEnv : Env := Sample.env (Sample.healthy Sample.webConfig).

(** The payload does not decode. *)
Definition badPayloadEnv : Env := withConfig healthyEnv (inl "unexpected end of JSON input").

(** The delegate's result carries no address. *)
Definition noAddressResult : Result030 :=
  {| CNIVersion := "0.3.1"; Interfaces := ["eth0"]; IPs := [];
     Routes := []; ResultDNS := {| Nameservers := []; Domain := EmptyString;
                                   Search := []; Options := [] |} |}.

Definition noAddressEnv : Env := withResult healthyEnv (inr noAddressResult).

Definition noAddressRun : Res unit * World :=
  cmdAdd noAddressEnv (Sample.args "c1") empty_world.

(** The delegate's result carries a nil entry where the address should be. *)
Definition nilAddressResult : Result030 :=
  {| CNIVersion := "0.3.1"; Interfaces := ["eth0"]; IPs := [None];
     Routes := []; ResultDNS := {| Nameservers := []; Domain := EmptyString;
                                   Search := []; Options := [] |} |}.

Definition nilAddressEnv : Env := withResult healthyEnv (inr nilAddressResult).

Definition nilAddressRun : Res unit * World :=
  cmdAdd nilAddressEnv (Sample.args "c1") empty_world.

(** The empty container handle at a host whose policy agent answers 500. *)
Definition emptyHandleAgentErrorRun : Res unit * World :=
  cmdAdd (Sample.env Sample.agentError) (Sample.args EmptyString) empty_world.

(** The empty container handle and a DNS list with a host name in it. *)
Definition emptyHandleBadDNSRun : Res unit * World :=
  cmdAdd (Sample.env (Sample.healthy Sample.badDNSConfig)) (Sample.args EmptyString)
         empty_world.

(** The config names the underlay interfaces itself. *)
Definition overrideConfig : WrapperConfig :=
  Sample.config Sample.dns [mkPortMapping 8080 80] ["eth1"; "eth2"].

Definition overrideEnv : Env := Sample.env (Sample.healthy overrideConfig).

Definition overrideAddRun : Res unit * World :=
  cmdAdd overrideEnv (Sample.args "c1") empty_world.

Definition overrideDelRun : Res unit * World :=
  cmdDel overrideEnv (Sample.args "c1") empty_world.

(** The delegate fails. *)
Definition delegateFails : Sample.Host :=
  {| Sample.host_config := inr Sample.webConfig; Sample.host_status := 200;
     Sample.host_fault := Sample.failing SDelegateAdd "exec: silk-cni: not found" |}.

Definition delegateFailsRun : Res unit * World :=
  cmdAdd (Sample.env delegateFails) (Sample.args "c1") empty_world.

End Edge.

(** The interface names a chain manager should get under [cfg]: the
    override of the config when there is one, else names that a lookup of
    the run answered. *)
Definition names_resolved (cfg : WrapperConfig) (t : Trace) (names : list string)
  : Prop :=
  match TemporaryUnderlayInterfaceNames cfg with
  | [] => In names (looked_up_names t)
  | _ :: _ => names = TemporaryUnderlayInterfaceNames cfg
  end.

(** The plugin controller that both verbs build for [cfg]. *)
Definition controller_of (cfg : WrapperConfig) : PluginController :=
  mkPluginController (mkLockedIPTables (IPTablesLockFile cfg)).
(** ** Running the monad *)

Section Run.

Context {A B : Type}.

Lemma run_bind_ret (a : A) (k : A -> M B) w : bind (ret a) k w = k a w.
Proof. reflexivity. Qed.

Lemma run_bind_throw e (k : A -> M B) w : bind (throw e) k w = (Throw e, w).
Proof. reflexivity. Qed.

Lemma run_bind_panic msg (k : A -> M B) w : bind (panic msg) k w = (Panic msg, w).
Proof. reflexivity. Qed.

Lemma run_bind_log s (k : unit -> M B) w :
  bind (log s) k w = k tt (mkWorld (trace w) (stderr w ++ [s])).
Proof. reflexivity. Qed.

Lemma run_bind_perform (f : Trace -> A) c ans (k : A -> M B) w :
  bind (perform f c ans) k w
  = k (f (trace w)) (mkWorld (trace w ++ [mkEvent c (ans (f (trace w)))]) (stderr w)).
Proof. reflexivity. Qed.

Lemma run_bind_assoc {C} (m : M C) (k : C -> M A) (k' : A -> M B) w :
  bind (bind m k) k' w = bind m (fun c => bind (k c) k') w.
Proof.
  unfold bind. destruct (m w) as [[c|e|msg] w1]; reflexivity.
Qed.

Lemma run_bind_of (m : M A) (k : A -> M B) w r w1 :
  m w = (r, w1) ->
  bind m k w = match r with
               | Ret a => k a w1
               | Throw e => (Throw e, w1)
               | Panic msg => (Panic msg, w1)
               end.
Proof. intros H. unfold bind. rewrite H. reflexivity. Qed.

End Run.

Lemma run_ret {A} (a : A) w : ret a w = (Ret a, w).
Proof. reflexivity. Qed.

Lemma run_throw {A} e w : @throw A e w = (Throw e, w).
Proof. reflexivity. Qed.

Lemma run_log s w : log s w = (Ret tt, mkWorld (trace w) (stderr w ++ [s])).
Proof. reflexivity. Qed.

Lemma run_perform {A} (f : Trace -> A) c ans w :
  perform f c ans w
  = (Ret (f (trace w)), mkWorld (trace w ++ [mkEvent c (ans (f (trace w)))]) (stderr w)).
Proof. reflexivity. Qed.

(** A step that only logs its failure does not branch the run. *)
Lemma run_bind_orLog_perform {B} (f : Trace -> option error) c wrap
  (k : unit -> M B) w :
  bind (orLog (perform f c AErr) wrap) k w
  = k tt (mkWorld (trace w ++ [mkEvent c (AErr (f (trace w)))])
                  (stderr w ++ match f (trace w) with
                               | Some err => [wrap err]
                               | None => []
                               end)).
Proof.
  unfold orLog. rewrite run_bind_assoc, run_bind_perform.
  destruct (f (trace w)) as [err|].
  - reflexivity.
  - rewrite run_bind_ret. cbn [trace stderr]. now rewrite app_nil_r.
Qed.

Lemma run_bind_orLog_ret {B} (o : option error) wrap (k : unit -> M B) w :
  bind (orLog (ret o) wrap) k w
  = k tt (mkWorld (trace w) (stderr w ++ match o with
                                         | Some err => [wrap err]
                                         | None => []
                                         end)).
Proof.
  unfold orLog. rewrite run_bind_assoc, run_bind_ret.
  destruct o as [err|].
  - reflexivity.
  - rewrite run_bind_ret, app_nil_r. now destruct w.
Qed.

Ltac unfold_calls H :=
  unfold orReturn, orReturnErr, newPluginController,
    call_DelegateAdd, call_DelegateDel, call_StoreAdd, call_StoreDelete,
    call_AddIPMasq, call_DelIPMasq, call_HttpGet, call_GetNamesFromIPs,
    call_NetOutInitialize, call_NetOutBulkInsertRules, call_NetOutCleanup,
    call_NetInInitialize, call_NetInAddRule, call_NetInCleanup, call_Print in H.

(** Replace the answer [f (trace w)] of a call by a variable: the theorems
    read answers off the trace, and the traces of later calls stay small; a
    pair is split into its components. *)
Ltac name_answer H f w :=
  let a := fresh "ans" in
  set (a := f (trace w)) in H; clearbody a;
  lazymatch type of a with
  | prod _ _ => destruct a as [? ?]
  | _ => idtac
  end.

(** One step of symbolic execution of a run [H : m w = (r, w')]. *)
Ltac exec_step H :=
  lazymatch type of H with
  | bind (orLog (perform ?f ?c AErr) ?wrap) ?k ?w = _ =>
      rewrite (run_bind_orLog_perform f c wrap k w) in H;
      name_answer H f w
  | bind (orLog (ret ?o) ?wrap) ?k ?w = _ =>
      rewrite (run_bind_orLog_ret o wrap k w) in H
  | bind (bind ?m ?k) ?k' ?w = _ => rewrite (run_bind_assoc m k k' w) in H
  | bind (ret ?a) ?k ?w = _ => rewrite (run_bind_ret a k w) in H
  | bind (throw ?e) ?k ?w = _ => rewrite (run_bind_throw e k w) in H
  | bind (panic ?e) ?k ?w = _ => rewrite (run_bind_panic e k w) in H
  | bind (log ?s) ?k ?w = _ => rewrite (run_bind_log s k w) in H
  | bind (perform ?f ?c ?ans) ?k ?w = _ =>
      rewrite (run_bind_perform f c ans k w) in H;
      name_answer H f w
  | ret ?a ?w = _ => rewrite (run_ret a w) in H
  | throw ?e ?w = _ => rewrite (run_throw e w) in H
  | log ?s ?w = _ => rewrite (run_log s w) in H
  | perform ?f ?c ?ans ?w = _ =>
      rewrite (run_perform f c ans w) in H;
      name_answer H f w
  | bind (cmdAdd_portMappings ?E ?p ?h ?ia ?ip ?l) ?k ?w0 = _ =>
      let Hloop := fresh "Hloop" in
      let wl := fresh "wl" in
      destruct (cmdAdd_portMappings E p h ia ip l w0) as [[[]|?e|?msg] wl] eqn:Hloop;
      rewrite (@run_bind_of _ _ _ k _ _ _ Hloop) in H
  | bind (match ?x with _ => _ end) _ _ = _ => destruct x eqn:?
  | bind (if ?x then _ else _) _ _ = _ => destruct x eqn:?
  | (match ?x with _ => _ end) _ = _ => destruct x eqn:?
  | (if ?x then _ else _) _ = _ => destruct x eqn:?
  | _ => progress (cbv beta in H; cbn [trace stderr fst snd app] in H)
  end.

Ltac exec H := unfold_calls H; repeat exec_step H.

Section Loop.

Variable E : Env.
Variables (p : NetIn) (handle ia ip : string).

(** How the port-mapping loop ends: it walks the list in order, asks for one
    rule per mapping, and stops at the first bad host port or failed rule. *)
Lemma cmdAdd_portMappings_run (l : list PortMapping) :
  forall w r w',
    cmdAdd_portMappings E p handle ia ip l w = (r, w') ->
    stderr w' = stderr w /\
    exists done rest,
      l = done ++ rest /\
      Forall (fun m => 0 < HostPort m) done /\
      ((r = Ret tt /\ rest = [] /\
        trace w' = trace w ++ map (addRule_event p handle ia ip None) done)
       \/
       (exists m rest', rest = m :: rest' /\ HostPort m <= 0 /\
          r = Throw ("cannot allocate port " ++ fmt_d (HostPort m))%string /\
          trace w' = trace w ++ map (addRule_event p handle ia ip None) done)
       \/
       (exists m rest' e, rest = m :: rest' /\ 0 < HostPort m /\
          r = Throw ("adding netin rule: " ++ e)%string /\
          trace w' = trace w ++ map (addRule_event p handle ia ip None) done
                             ++ [mkEvent (NetInAddRule p handle (HostPort m)
                                            (ContainerPort m) ia ip)
                                         (AErr (Some e))])).
Proof.
  induction l as [|m l IH]; intros w r w' Hrun.
  - inversion Hrun; subst. split; [reflexivity|].
    exists [], []. repeat split; auto. left. rewrite app_nil_r. auto.
  - cbn [cmdAdd_portMappings] in Hrun.
    destruct (Z.leb_spec (HostPort m) 0) as [Hle|Hgt].
    + inversion Hrun; subst. split; [reflexivity|].
      exists [], (m :: l). repeat split; auto.
      right; left. exists m, l. rewrite app_nil_r. auto.
    + exec Hrun.
      * inversion Hrun; subst. split; [reflexivity|].
        exists [], (m :: l). repeat split; auto.
        right; right. exists m, l, e. auto.
      * apply IH in Hrun. destruct Hrun as [Herr (done & rest & Hl & Hpos & Hcases)].
        split; [exact Herr|].
        exists (m :: done), rest. simpl in *.
        split; [now rewrite Hl|]. split; [constructor; auto|].
        destruct Hcases as [(? & ? & Ht) | [(m' & rest' & ? & ? & ? & Ht)
                                          | (m' & rest' & e & ? & ? & ? & Ht)]];
          rewrite Ht, <- app_assoc; simpl; eauto 10.
Qed.

End Loop.

(** ** Reading a run *)

Lemma addRule_events_Forall (P : Event -> Prop) p handle ia ip err l :
  (forall m, P (addRule_event p handle ia ip err m)) ->
  Forall P (map (addRule_event p handle ia ip err) l).
Proof.
  intros HP. apply Forall_forall. intros ev Hin.
  apply in_map_iff in Hin. destruct Hin as (m & <- & _). apply HP.
Qed.

(** Closing a leaf of a symbolic run: read the result and the world off. *)
Ltac finish H :=
  injection H as <- <-; cbn [trace stderr fst snd] in *.

(** Use the loop lemma on [H : cmdAdd_portMappings ... = (r, w)]. *)
Ltac loop_inv H :=
  apply cmdAdd_portMappings_run in H;
  let Herr := fresh "Hstderr" in
  let done := fresh "done" in
  let rest := fresh "rest" in
  let Hl := fresh "Hsplit" in
  let Hpos := fresh "Hpos" in
  let Ht := fresh "Htrace" in
  destruct H as [Herr (done & rest & Hl & Hpos &
    [(? & ? & Ht) | [(?m & ?rest' & ? & ? & ? & Ht) | (?m & ?rest' & ?e & ? & ? & ? & Ht)]])];
  cbn [trace stderr] in Herr, Ht; try discriminate.

(** Replace the world the loop ended in by what the loop lemma says of it. *)
Ltac loop_world :=
  try match goal with
      | Ht : trace ?w = _, Herr : stderr ?w = _ |- _ => rewrite ?Ht, ?Herr in *
      end.

(** All the ways [cmdAdd] can run from the empty world, one goal each. *)
Ltac add_cases H :=
  unfold cmdAdd, empty_world in H; exec H;
  try (match goal with
       | Hl : cmdAdd_portMappings _ _ _ _ _ _ _ = _ |- _ => loop_inv Hl
       end);
  finish H; loop_world; cbn [trace stderr app] in *.

Ltac del_cases H :=
  unfold cmdDel, empty_world in H; exec H;
  finish H; cbn [trace stderr app] in *.

(** Membership in a trace that is a concrete list, an append or the events
    of the loop. *)
Ltac in_inv H :=
  repeat match type of H with
         | In _ (_ ++ _) => apply in_app_or in H; destruct H as [H|H]
         | In _ (map _ _) => apply in_map_iff in H; destruct H as (? & H & _)
         | In _ (_ :: _) => destruct H as [H|H]
         | In _ [] => destruct H
         end.

(** ** Views of the events of the loop *)

Section LoopViews.

Variables (p : NetIn) (handle ia ip : string) (err : option error).

Lemma only_app s (t1 t2 : Trace) : only s (t1 ++ t2) = only s t1 ++ only s t2.
Proof.
  induction t1 as [|ev t1 IH]; [reflexivity|].
  cbn [app only]. destruct (Step_eqb (step_of (ev_call ev)) s); cbn [app]; now rewrite IH.
Qed.

Lemma steps_app (t1 t2 : Trace) : steps (t1 ++ t2) = steps t1 ++ steps t2.
Proof. induction t1 as [|ev t1 IH]; [reflexivity|]. cbn [app steps]. now rewrite IH. Qed.

Lemma outline_app (t1 t2 : Trace) : outline (t1 ++ t2) = outline t1 ++ outline t2.
Proof. induction t1 as [|ev t1 IH]; [reflexivity|]. cbn [app outline]. now rewrite IH. Qed.

Lemma addRule_ports_app (t1 t2 : Trace) :
  addRule_ports (t1 ++ t2) = addRule_ports t1 ++ addRule_ports t2.
Proof.
  induction t1 as [|ev t1 IH]; [reflexivity|].
  cbn [app addRule_ports]. destruct (ev_call ev); cbn [app]; now rewrite IH.
Qed.

Lemma addRule_ports_loop l :
  addRule_ports (map (addRule_event p handle ia ip err) l) = map ports_of l.
Proof.
  induction l as [|m l IH]; [reflexivity|].
  cbn [map addRule_ports addRule_event ev_call]. now rewrite IH.
Qed.

Lemma only_loop_same l :
  only SNetInAddRule (map (addRule_event p handle ia ip err) l)
  = map (addRule_event p handle ia ip err) l.
Proof.
  induction l as [|m l IH]; [reflexivity|].
  cbn [map only addRule_event ev_call step_of Step_eqb]. now rewrite IH.
Qed.

Lemma only_loop_other s l :
  Step_eqb SNetInAddRule s = false ->
  only s (map (addRule_event p handle ia ip err) l) = [].
Proof.
  intros Hs. induction l as [|m l IH]; [reflexivity|].
  cbn [map only addRule_event step_of ev_call]. rewrite Hs. exact IH.
Qed.

Lemma steps_loop l :
  steps (map (addRule_event p handle ia ip err) l) = map (fun _ => SNetInAddRule) l.
Proof.
  induction l as [|m l IH]; [reflexivity|].
  cbn [map steps addRule_event ev_call step_of]. now rewrite IH.
Qed.

Lemma outline_loop l :
  outline (map (addRule_event p handle ia ip err) l)
  = map (fun _ => (SNetInAddRule, err)) l.
Proof.
  induction l as [|m l IH]; [reflexivity|].
  cbn [map outline addRule_event ev_call ev_answer step_of answer_err]. now rewrite IH.
Qed.

Lemma events_after_loop s l t :
  Step_eqb SNetInAddRule s = false ->
  events_after s (map (addRule_event p handle ia ip err) l ++ t) = events_after s t.
Proof.
  intros Hs. induction l as [|m l IH]; [reflexivity|].
  cbn [map app events_after addRule_event step_of ev_call]. rewrite Hs. exact IH.
Qed.

Lemma events_before_loop s l t :
  Step_eqb SNetInAddRule s = false ->
  events_before s (map (addRule_event p handle ia ip err) l ++ t) = map (addRule_event p handle ia ip err) l ++ events_before s t.
Proof.
  intros Hs. induction l as [|m l IH]; [reflexivity|].
  cbn [map app events_before addRule_event step_of ev_call].
  rewrite Hs, IH. reflexivity.
Qed.

Lemma events_after_loop_end s l :
  Step_eqb SNetInAddRule s = false ->
  events_after s (map (addRule_event p handle ia ip err) l) = [].
Proof.
  intros Hs. rewrite <- (app_nil_r (map _ l)). now apply events_after_loop.
Qed.

Lemma events_before_loop_end s l :
  Step_eqb SNetInAddRule s = false ->
  events_before s (map (addRule_event p handle ia ip err) l)
  = map (addRule_event p handle ia ip err) l.
Proof.
  intros Hs. rewrite <- (app_nil_r (map _ l)) at 1.
  rewrite events_before_loop by exact Hs. apply app_nil_r.
Qed.

End LoopViews.

(** Bring a trace to the shape [e1 :: ... :: (loop events ++ [e; ...])]. *)
Ltac norm_trace :=
  cbn [app] in *; rewrite <- ?app_assoc in *; cbn [app] in *.

(** Compute the views of such a trace. *)
Ltac views_cbn :=
  cbn [only steps outline addRule_ports events_after events_before
       step_of Step_eqb ev_call ev_answer answer_err app] in *.

Ltac views :=
  repeat (views_cbn;
          first [ rewrite only_app in *
                | rewrite steps_app in *
                | rewrite outline_app in *
                | rewrite addRule_ports_app in *
                | rewrite addRule_ports_loop in *
                | rewrite only_loop_same in *
                | rewrite only_loop_other in * by reflexivity
                | rewrite steps_loop in *
                | rewrite outline_loop in *
                | rewrite events_after_loop in * by reflexivity
                | rewrite events_before_loop in * by reflexivity
                | rewrite events_after_loop_end in * by reflexivity
                | rewrite events_before_loop_end in * by reflexivity ]);
  views_cbn.

(** [Forall P] over such a trace, one goal per event; [tac] closes them. *)
Ltac forall_trace tac :=
  repeat first
    [ apply Forall_nil
    | apply Forall_cons
    | apply Forall_app; split
    | apply addRule_events_Forall; intros ];
  tac.

(** Use the test on the status that a leaf of the run carries. *)
Ltac status_case :=
  match goal with
  | Hs : negb (StatusCode ?resp =? StatusOK) = _ |- _ =>
      unfold StatusOK in *;
      destruct (StatusCode resp =? 200) eqn:?; cbn [negb] in Hs; try discriminate Hs
  end.

(** Use the test on the interface override that a leaf of the run carries. *)
Ltac override_case :=
  match goal with
  | Ho : (0 <? Z.of_nat (length ?l)) = _ |- _ =>
      destruct l; cbn in Ho; try discriminate Ho
  end.

(** [Hev] says that every event of a trace went well, and one did not. *)
Ltac failed_event Hev :=
  exfalso;
  cbn [forallb event_ok answer_ok answer_err ev_answer andb] in Hev;
  unfold StatusOK in Hev;
  repeat match goal with
         | Hs : (_ =? 200) = _ |- _ => rewrite Hs in Hev
         end;
  cbn [andb] in Hev; discriminate Hev.

(** Membership goals over such a trace: find the element, or refute the
    hypothesis [Hin] that it is there. *)
Ltac prove_in :=
  solve [ repeat first [ (left; reflexivity) | right | (apply in_or_app; right) ] ].

Ltac refute_in Hin :=
  exfalso; in_inv Hin; discriminate Hin.

(** ** Runs at a healthy host *)

Example dns_filter_sample :
  getLocalDNSServers (Sample.env (Sample.healthy Sample.webConfig)) Sample.dns
  = inr ["169.254.0.2"; "fe80::1"].
Proof. reflexivity. Qed.

(** An Add for [c1] with the mapping 8080 -> 80: one ingress rule, and the
    store gets the record of [c1] with the address the delegate assigned. *)
Example add_c1_sample :
  fst Sample.healthyRun = Ret tt /\
  addRule_ports (trace (snd Sample.healthyRun)) = [(8080, 80)] /\
  only SStoreAdd (trace (snd Sample.healthyRun))
  = [mkEvent (StoreAdd Sample.addStore "c1" "10.255.30.4" "{app_id:a1}") (AErr None)] /\
  stderr (snd Sample.healthyRun) = [].
Proof. repeat split; vm_compute; reflexivity. Qed.

(** The Del that follows it runs every step and logs nothing. *)
Example del_c1_sample :
  fst Sample.healthyDelRun = Ret tt /\
  steps (trace (snd Sample.healthyDelRun))
  = [SStoreDelete; SIptablesNew; SDelegateDel; SNetInCleanup; SGetNamesFromIPs;
     SNetOutCleanup; SDelIPMasq] /\
  stderr (snd Sample.healthyDelRun) = [].
Proof. repeat split; vm_compute; reflexivity. Qed.

(** ** The unchecked error of NetIn.Initialize (C1, C4) *)

(** C1 (the code departs from the claim).  The claim: every state of the
    Add is a failure point, and when the ingress chain initialization fails
    the Add aborts with an error and applies no port-mapping rule afterwards.
    The code: on a host where NetIn.Initialize fails and every other
    collaborator works, the Add for a container with the mapping 8080 -> 80
    returns success; the failed initialization is followed by the AddRule
    call for that mapping, the bulk insert, the masquerade rule and the
    printed result. *)
Theorem netin_initialize_error_is_ignored :
  fst Sample.ingressInitFailsRun = Ret tt /\
  outline (trace (snd Sample.ingressInitFailsRun))
  = [(SIptablesNew, None); (SDelegateAdd, None); (SStoreAdd, None);
     (SHttpGet, None); (SGetNamesFromIPs, None); (SNetOutInitialize, None);
     (SNetInInitialize, Some "iptables: chain already exists");
     (SNetInAddRule, None); (SNetOutBulkInsertRules, None);
     (SAddIPMasq, None); (SPrint, None)] /\
  addRule_ports (events_after SNetInInitialize (trace (snd Sample.ingressInitFailsRun)))
  = [(8080, 80)] /\
  stderr (snd Sample.ingressInitFailsRun) = [].
Proof.
  repeat split; vm_compute; reflexivity.
Qed.

(** The same on every host: after a NetIn.Initialize that failed, the Add
    does what it does after one that worked.  It asks for the ingress rule
    of the first port mapping, or rejects that mapping for its host port, or
    with no mapping goes to the bulk insert. *)
Lemma add_goes_on_after_failed_netin_initialize E args cfg r w p handle err :
  LoadWrapperConfig E (StdinData args) = inr cfg ->
  cmdAdd E args empty_world = (r, w) ->
  In (mkEvent (NetInInitialize p handle) (AErr (Some err))) (trace w) ->
  match PortMappings (RuntimeCfg cfg) with
  | [] =>
      exists q rules ans rest,
        events_after SNetInInitialize (trace w)
        = mkEvent (NetOutBulkInsertRules q rules) ans :: rest
  | m :: _ =>
      if HostPort m <=? 0
      then r = Throw ("cannot allocate port " ++ fmt_d (HostPort m))%string /\
           events_after SNetInInitialize (trace w) = []
      else exists ip ans rest,
             events_after SNetInInitialize (trace w)
             = mkEvent (NetInAddRule p handle (HostPort m) (ContainerPort m)
                                     (InstanceAddress cfg) ip) ans :: rest
  end.
Proof.
  intros HLoad H Hin.
  add_cases H; try discriminate HLoad; injection HLoad as ->.
  all: norm_trace.
  all: try (refute_in Hin).
  all: in_inv Hin; try discriminate Hin.
  all: injection Hin; intros; subst; clear Hin.
  all: views.
  all: match goal with
       | Hs : PortMappings _ = _ |- _ => rewrite Hs
       end.
  all: subst.
  all: destruct done as [|m1 done']; cbn [app map].
  all: try match goal with
           | Hp : Forall _ (_ :: _) |- _ =>
               inversion Hp as [|? ? Hm1 ?]; subst;
               apply Z.leb_gt in Hm1; rewrite Hm1
           end.
  all: repeat match goal with
              | Hle : HostPort _ <= 0 |- _ => apply Z.leb_le in Hle; rewrite Hle
              | Hgt : 0 < HostPort _ |- _ => apply Z.leb_gt in Hgt; rewrite Hgt
              end.
  all: first [ split; [assumption | reflexivity]
             | eexists _, _, _; reflexivity
             | eexists _, _, _, _; reflexivity ].
Qed.

(** C4 (the code departs from the claim).  The claim: the masquerade
    exemption is added only after the chain initializations, the ingress
    rules and the bulk egress insert have succeeded.  The code: on a host
    where NetIn.Initialize fails, the exemption is added all the same, after
    the failed ingress initialization. *)
Theorem masquerade_added_after_failed_ingress_init :
  fst Sample.ingressInitFailsNoPortsRun = Ret tt /\
  outline (events_before SAddIPMasq (trace (snd Sample.ingressInitFailsNoPortsRun)))
  = [(SIptablesNew, None); (SDelegateAdd, None); (SStoreAdd, None);
     (SHttpGet, None); (SGetNamesFromIPs, None); (SNetOutInitialize, None);
     (SNetInInitialize, Some "iptables: resource unavailable");
     (SNetOutBulkInsertRules, None)] /\
  outline (only SAddIPMasq (trace (snd Sample.ingressInitFailsNoPortsRun)))
  = [(SAddIPMasq, None)].
Proof.
  repeat split; vm_compute; reflexivity.
Qed.

(** What does hold of the masquerade exemption, on every host: when it is
    requested, the store write, the notification, the NetOut initialization,
    one ingress rule per port mapping (in list order) and the bulk insert
    have all succeeded, and NetIn.Initialize has been called; only its
    outcome is open.  Nothing but the printing of the result follows. *)
Lemma masquerade_requested_last E args cfg r w pc ip cidr vtep ans :
  LoadWrapperConfig E (StdinData args) = inr cfg ->
  cmdAdd E args empty_world = (r, w) ->
  In (mkEvent (AddIPMasq pc ip cidr vtep) ans) (trace w) ->
  (exists ingressErr,
     outline (events_before SAddIPMasq (trace w))
     = [(SIptablesNew, None); (SDelegateAdd, None); (SStoreAdd, None);
        (SHttpGet, None)]
       ++ match TemporaryUnderlayInterfaceNames cfg with
          | [] => [(SGetNamesFromIPs, None)]
          | _ :: _ => []
          end
       ++ [(SNetOutInitialize, None); (SNetInInitialize, ingressErr)]
       ++ map (fun _ => (SNetInAddRule, None)) (PortMappings (RuntimeCfg cfg))
       ++ [(SNetOutBulkInsertRules, None)]) /\
  addRule_ports (trace w) = map ports_of (PortMappings (RuntimeCfg cfg)) /\
  only SDelIPMasq (trace w) = [] /\
  forallb (Step_eqb SPrint) (steps (events_after SAddIPMasq (trace w))) = true.
Proof.
  intros HLoad H Hin.
  add_cases H; try discriminate HLoad; injection HLoad as ->.
  all: norm_trace.
  all: in_inv Hin; try discriminate Hin.
  all: clear Hin; subst; rewrite ?app_nil_r in *.
  all: views.
  all: try override_case.
  all: match goal with
       | Hs : PortMappings _ = _ |- _ => rewrite Hs
       end.
  all: cbn [app]; rewrite <- ?app_assoc, ?app_nil_r; cbn [app].
  all: split; [eexists; reflexivity|].
  all: repeat split; reflexivity.
Qed.

(** The exemption is in place at the end of an Add exactly when the Add got
    as far as printing its result; a failed store write leaves none. *)
Lemma masquerade_present_iff_add_completed E args r w :
  cmdAdd E args empty_world = (r, w) ->
  (In (SAddIPMasq, None) (outline (trace w)) <-> In SPrint (steps (trace w))) /\
  (r = Ret tt -> In (SAddIPMasq, None) (outline (trace w))) /\
  (In SAddIPMasq (steps (trace w)) ->
   forallb event_ok (only SStoreAdd (trace w)) = true).
Proof.
  intros H.
  add_cases H.
  all: norm_trace; views.
  all: split; [split; intros Hin; first [prove_in | refute_in Hin]|].
  all: split; [intros Hr; first [discriminate Hr | prove_in]|].
  all: intros Hin; first [reflexivity | refute_in Hin].
Qed.

(** ** Del (C2) *)

(** A payload that does not parse: the error is returned, nothing is called. *)
Lemma cmdDel_config_failure E args err :
  LoadWrapperConfig E (StdinData args) = inl err ->
  cmdDel E args empty_world = (Throw err, empty_world).
Proof.
  intros HLoad. unfold cmdDel, orReturn.
  rewrite run_bind_assoc, run_bind_ret, HLoad. reflexivity.
Qed.

(** C2, amended.  For a Del whose payload parses: the error stream holds
    exactly the messages of the steps that failed, in order; the address
    that the store hands back with its answer, error or not, is the one the
    later steps use; if neither the plugin controller nor the interface
    lookup fails, Del returns success after running every step in order
    (store delete, controller, delegate delete, NetIn cleanup, interface
    lookup unless overridden, NetOut cleanup, masquerade removal), whatever
    the other steps answer.  A failure to build the plugin controller and a
    failure of the interface lookup are returned to the caller, and the
    steps after them do not run. *)
Theorem cmdDel_best_effort E args cfg r w :
  LoadWrapperConfig E (StdinData args) = inr cfg ->
  cmdDel E args empty_world = (r, w) ->
  stderr w = flat_map del_log (trace w) /\
  (forall store handle c err,
     In (mkEvent (StoreDelete store handle) (AContainer c err)) (trace w) ->
     handle = ContainerID args /\
     Forall (fun ev => Forall (eq (Container_IP c)) (call_containerIPs (ev_call ev)))
            (trace w)) /\
  (existsb del_fatal (trace w) = false ->
   r = Ret tt /\
   steps (trace w)
   = [SStoreDelete; SIptablesNew; SDelegateDel; SNetInCleanup]
     ++ match TemporaryUnderlayInterfaceNames cfg with
        | [] => [SGetNamesFromIPs]
        | _ :: _ => []
        end
     ++ [SNetOutCleanup; SDelIPMasq]) /\
  (forall err,
     In (mkEvent IptablesNew (AErr (Some err))) (trace w) ->
     r = Throw err /\ steps (trace w) = [SStoreDelete; SIptablesNew]) /\
  (forall ips err,
     In (mkEvent (GetNamesFromIPs ips) (ANames (inl err))) (trace w) ->
     r = Throw ("looking up interface names: " ++ err)%string /\
     steps (trace w)
     = [SStoreDelete; SIptablesNew; SDelegateDel; SNetInCleanup; SGetNamesFromIPs]).
Proof.
  intros HLoad H.
  del_cases H; try discriminate HLoad; injection HLoad as ->.
  all: split;
    [repeat match goal with
            | |- context [match ?x with _ => _ end] => destruct x
            end; reflexivity|].
  all: split; [intros st hd c' err Hin; in_inv Hin; try discriminate Hin;
               injection Hin as <- <- <- <-; split; [reflexivity|];
               repeat constructor|].
  all: split; [intros Hfatal; try discriminate Hfatal;
               try override_case; split; reflexivity|].
  all: split; [intros err Hin; in_inv Hin; try discriminate Hin;
               injection Hin as <-; split; reflexivity|].
  all: intros ips err Hin; in_inv Hin; try discriminate Hin.
  all: injection Hin as <- <-; split; reflexivity.
Qed.

(** ** The failed store write (C3) *)

(** C3.  If the metadata-store write of an Add fails with [e], the next and
    last call of the Add is the removal of the masquerade exemption for the
    container address (no exemption has been added before it), whatever that
    removal answers is only written to the error stream, and the Add returns
    the store error, prefixed, never the error of the removal. *)
Theorem store_add_failure_runs_masq_cleanup E args r w store handle ip md e :
  cmdAdd E args empty_world = (r, w) ->
  In (mkEvent (StoreAdd store handle ip md) (AErr (Some e))) (trace w) ->
  exists cfg pc cleanupErr before,
    LoadWrapperConfig E (StdinData args) = inr cfg /\
    trace w = before ++
      [mkEvent (StoreAdd store handle ip md) (AErr (Some e));
       mkEvent (DelIPMasq pc ip (NoMasqueradeCIDRRange cfg) (VTEPName cfg))
               (AErr cleanupErr)] /\
    only SAddIPMasq before = [] /\
    r = Throw ("store add: " ++ e)%string /\
    stderr w = [("store add: " ++ e)%string; "cleaning up from error"] ++
               match cleanupErr with
               | Some e' => [("during cleanup: removing IP masq: " ++ e')%string]
               | None => []
               end.
Proof.
  intros H Hin.
  add_cases H.
  all: in_inv Hin; try discriminate Hin.
  all: inversion Hin; subst; clear Hin.
  all: eexists _, _, _, [_; _]; repeat split; reflexivity.
Qed.

(** ** The policy-agent notification (C5) *)

(** C5, amended.  When an Add reaches the policy-agent notification, the
    delegate call and the store write for the container have succeeded, and
    no call of the Add ever deletes a store record or removes a masquerade
    rule.  A transport error aborts the Add with that error; a response whose
    status is not 200 (other 2xx statuses included) aborts it with an error
    that carries the status and the body; in both cases no call follows.  A
    200 response lets the Add go on to its next steps. *)
Theorem policy_agent_failure_aborts_add E args cfg r w url ans :
  LoadWrapperConfig E (StdinData args) = inr cfg ->
  cmdAdd E args empty_world = (r, w) ->
  In (mkEvent (HttpGet url) (AResponse ans)) (trace w) ->
  (exists raw store ip md,
     events_before SHttpGet (trace w)
     = [mkEvent IptablesNew (AErr None);
        mkEvent (DelegateAdd (mkPluginController (mkLockedIPTables (IPTablesLockFile cfg)))
                             (Delegate cfg))
                (AResult (inr raw));
        mkEvent (StoreAdd store (ContainerID args) ip md) (AErr None)]) /\
  only SStoreDelete (trace w) = [] /\
  only SDelIPMasq (trace w) = [] /\
  match ans with
  | inl err => r = Throw err /\ events_after SHttpGet (trace w) = []
  | inr resp =>
      if StatusCode resp =? 200
      then add_goes_on E args cfg r (events_after SHttpGet (trace w))
      else r = Throw (vpaError resp) /\ events_after SHttpGet (trace w) = []
  end.
Proof.
  intros HLoad H Hin.
  add_cases H; try discriminate HLoad; injection HLoad as ->.
  all: norm_trace.
  all: in_inv Hin; try discriminate Hin.
  all: injection Hin as <- <-.
  all: views.
  all: split; [eexists _, _, _, _; reflexivity|].
  all: split; [reflexivity|]. 
  all: split; [reflexivity|].
  all: try status_case.
  all: try (split; reflexivity).
  all: unfold add_goes_on.
  all: match goal with
       | Hd : getLocalDNSServers _ _ = _ |- _ => rewrite Hd
       end.
  all: try (split; reflexivity).
  all: override_case.
  all: try (eexists _, _; reflexivity).
  all: match goal with
       | Hc : (ContainerID _ =? _)%string = _ |- _ => rewrite Hc
       end.
  all: try (split; reflexivity).
  all: eexists _, _, _; reflexivity.
Qed.

(** ** Port mappings (C6) *)

Lemma first_bad_split {A} (P : A -> Prop) (done rest good : list A) m tail :
  done ++ rest = good ++ m :: tail ->
  Forall P done -> Forall P good -> ~ P m ->
  exists t, good = done ++ t /\ rest = t ++ m :: tail.
Proof.
  revert good. induction done as [|a done IH]; intros good Heq Hd Hg Hm.
  - exists good. split; [reflexivity | exact Heq].
  - destruct good as [|b good]; simpl in Heq; injection Heq as -> Heq.
    + inversion Hd; contradiction.
    + inversion Hd; inversion Hg; subst.
      destruct (IH good Heq) as (t & -> & ->); auto.
      exists t. split; reflexivity.
Qed.

(** Where the loop stops when the list is [good ++ m :: tail], [good] has
    positive host ports and [m] has not: the mappings it has gone through
    and what is left. *)
Lemma loop_stops_at_bad_port (done rest good tail : list PortMapping) m :
  done ++ rest = good ++ m :: tail ->
  Forall (fun p => 0 < HostPort p) done ->
  Forall (fun p => 0 < HostPort p) good ->
  HostPort m <= 0 ->
  (done = good /\ rest = m :: tail) \/
  (exists m' t, 0 < HostPort m' /\ good = done ++ m' :: t /\ rest = m' :: t ++ m :: tail).
Proof.
  intros Heq Hd Hg Hm.
  destruct (@first_bad_split _ (fun p => 0 < HostPort p) _ _ _ _ _ Heq Hd Hg)
    as (t & -> & ->);
    [lia|].
  destruct t as [|m' t].
  - left. rewrite app_nil_r. split; reflexivity.
  - right. exists m', t. repeat split.
    apply Forall_app in Hg. destruct Hg as [_ Hg]. inversion Hg; assumption.
Qed.

(** C6.  Let the port mappings be [good ++ m :: tail], with positive host
    ports in [good] and a host port of [m] that is not.  Then the Add fails;
    the ingress rules it asks for are those of a prefix of [good], in list
    order, so none is asked for [m] or a later mapping; and no cleanup of
    NetIn or NetOut is called.  If the Add gets to the loop and every rule it
    asks for is accepted, it asks for every mapping of [good], nothing
    follows, and the error is the one of [m]'s host port. *)
Theorem bad_host_port_aborts_add E args cfg good m tail r w :
  LoadWrapperConfig E (StdinData args) = inr cfg ->
  PortMappings (RuntimeCfg cfg) = good ++ m :: tail ->
  Forall (fun p => 0 < HostPort p) good ->
  HostPort m <= 0 ->
  cmdAdd E args empty_world = (r, w) ->
  r <> Ret tt /\
  (exists k, addRule_ports (trace w) = map ports_of (firstn k good)) /\
  only SNetInCleanup (trace w) = [] /\
  only SNetOutCleanup (trace w) = [] /\
  (In SNetInInitialize (steps (trace w)) ->
   forallb event_ok (only SNetInAddRule (trace w)) = true ->
   r = Throw ("cannot allocate port " ++ fmt_d (HostPort m))%string /\
   addRule_ports (trace w) = map ports_of good /\
   outline (events_after SNetInInitialize (trace w))
   = map (fun _ => (SNetInAddRule, None)) good).
Proof.
  intros HLoad Hpm Hgood Hbad H.
  add_cases H; try discriminate HLoad; injection HLoad as ->.
  all: try (match goal with
            | Hs : PortMappings _ = ?d ++ ?rs, Hp : Forall _ ?d |- _ =>
                rewrite Hpm in Hs;
                destruct (@loop_stops_at_bad_port _ _ _ _ _ (eq_sym Hs) Hp Hgood Hbad)
                  as [[-> Hrest] | (m' & t & Hm' & -> & Hrest)]; clear Hs
            end).
  all: try (exfalso; subst; inversion Hrest; subst; lia).
  all: norm_trace; views.
  all: split; [discriminate|].
  all: split; [|split; [reflexivity|split; [reflexivity|]]].
  all: try (exists 0%nat; reflexivity).
  all: try (intros Hin; exfalso; cbn in Hin; intuition discriminate).
  all: subst rest; injection Hrest as -> ->.
  all: first
    [ exists (length good); rewrite firstn_all; reflexivity
    | exists (length done + 1)%nat;
      rewrite firstn_app_2; cbn [firstn]; rewrite map_app; reflexivity
    | intros _ Hok; rewrite forallb_app in Hok; cbn in Hok;
      rewrite andb_false_r in Hok; discriminate Hok
    | intros _ _; repeat split; assumption ].
Qed.

(** ** DNS filtering (C7) *)

Section DNSFilter.

Variable E : Env.

Lemma getLocalDNSServers_loop_ok all :
  forall acc,
    forallb (parses E) all = true ->
    getLocalDNSServers_loop E all acc = inr (acc ++ filter (isLocalDNS E) all).
Proof.
  induction all as [|entry all IH]; intros acc Hall; cbn [getLocalDNSServers_loop filter].
  - now rewrite app_nil_r.
  - cbn [forallb] in Hall. apply andb_prop in Hall. destruct Hall as [Hentry Hall].
    unfold parses in Hentry. unfold isLocalDNS.
    destruct (ParseIP E entry) as [dnsIP|]; [|discriminate].
    destruct (IsLinkLocalUnicast E dnsIP).
    + rewrite IH by exact Hall. now rewrite <- app_assoc.
    + now apply IH.
Qed.

Lemma getLocalDNSServers_loop_bad ok bad rest :
  forall acc,
    forallb (parses E) ok = true ->
    ParseIP E bad = None ->
    getLocalDNSServers_loop E (ok ++ bad :: rest) acc = inl (invalidDNSServer bad).
Proof.
  induction ok as [|entry ok IH]; intros acc Hok Hbad; cbn [app getLocalDNSServers_loop].
  - now rewrite Hbad.
  - cbn [forallb] in Hok. apply andb_prop in Hok. destruct Hok as [Hentry Hok].
    unfold parses in Hentry.
    destruct (ParseIP E entry) as [dnsIP|]; [|discriminate].
    destruct (IsLinkLocalUnicast E dnsIP); now apply IH.
Qed.

(** The first entry that is no address, if there is one. *)
Lemma first_unparsable all :
  forallb (parses E) all = true \/
  exists ok bad rest,
    all = ok ++ bad :: rest /\ forallb (parses E) ok = true /\ ParseIP E bad = None.
Proof.
  induction all as [|entry all IH]; [now left|].
  destruct (ParseIP E entry) as [dnsIP|] eqn:Hentry.
  - destruct IH as [Hall | (ok & bad & rest & -> & Hok & Hbad)].
    + left. cbn [forallb]. unfold parses at 1. now rewrite Hentry.
    + right. exists (entry :: ok), bad, rest. repeat split; auto.
      cbn [forallb]. unfold parses at 1. now rewrite Hentry.
  - right. exists [], entry, all. repeat split; auto.
Qed.

Lemma getLocalDNSServers_inr all local :
  getLocalDNSServers E all = inr local ->
  forallb (parses E) all = true /\ local = filter (isLocalDNS E) all.
Proof.
  unfold getLocalDNSServers. intros Hrun.
  destruct (first_unparsable all) as [Hall | (ok & bad & rest & -> & Hok & Hbad)].
  - rewrite getLocalDNSServers_loop_ok in Hrun by exact Hall.
    injection Hrun as <-. auto.
  - rewrite getLocalDNSServers_loop_bad in Hrun by assumption. discriminate.
Qed.

Lemma parses_all_no_bad ok bad rest :
  forallb (parses E) (ok ++ bad :: rest) = true -> ParseIP E bad = None -> False.
Proof.
  intros Hall Hbad. rewrite forallb_app in Hall. cbn [forallb] in Hall.
  unfold parses at 2 in Hall. rewrite Hbad in Hall.
  rewrite andb_false_r in Hall. discriminate.
Qed.

End DNSFilter.

(** C7.  If every configured DNS entry parses, [getLocalDNSServers] yields
    the entries that parse and are link-local unicast, in their order.
    Every DNS list that an Add hands to a chain manager is that list.  If
    some entry does not parse, [getLocalDNSServers] fails on the first such
    entry, the Add fails, it makes no firewall call, and once the steps
    before the filtering have gone well its error is the one that names the
    entry. *)
Theorem dns_servers_filtered_to_link_local E args cfg r w :
  LoadWrapperConfig E (StdinData args) = inr cfg ->
  cmdAdd E args empty_world = (r, w) ->
  (forallb (parses E) (DNSServers cfg) = true ->
   getLocalDNSServers E (DNSServers cfg)
   = inr (filter (isLocalDNS E) (DNSServers cfg))) /\
  Forall (fun ev => Forall (eq (filter (isLocalDNS E) (DNSServers cfg)))
                           (call_dnsServers (ev_call ev)))
         (trace w) /\
  (forall ok bad rest,
     DNSServers cfg = ok ++ bad :: rest ->
     forallb (parses E) ok = true ->
     ParseIP E bad = None ->
     getLocalDNSServers E (DNSServers cfg) = inl (invalidDNSServer bad) /\
     r <> Ret tt /\
     forallb (fun s => negb (firewall_step s)) (steps (trace w)) = true /\
     (forallb event_ok (trace w) = true ->
      In SHttpGet (steps (trace w)) ->
      r = Throw (invalidDNSServer bad))).
Proof.
  intros HLoad H.
  split.
  { intros Hall. unfold getLocalDNSServers.
    now rewrite getLocalDNSServers_loop_ok. }
  add_cases H; try discriminate HLoad; injection HLoad as ->.
  all: norm_trace.
  all: try match goal with
           | Hd : getLocalDNSServers _ _ = inr _ |- _ =>
               apply getLocalDNSServers_inr in Hd; destruct Hd as [Hall ->]
           end.
  all: split; [forall_trace ltac:(cbn [call_dnsServers ev_call addRule_event
                                        NetOut_DNSServers];
                                  repeat constructor)|].
  all: intros ok bad tl Hdns Hok Hbad.
  all: try (exfalso; rewrite Hdns in Hall; exact (parses_all_no_bad _ _ _ _ Hall Hbad)).
  all: split; [rewrite Hdns; unfold getLocalDNSServers;
               now apply getLocalDNSServers_loop_bad|].
  all: split; [discriminate|].
  all: split; [reflexivity|].
  all: views.
  all: intros Hev Hin.
  all: try (exfalso; cbn in Hin; intuition discriminate).
  all: try status_case.
  all: try (failed_event Hev).
  all: match goal with
       | Hd : getLocalDNSServers _ _ = inl _ |- _ =>
           rewrite Hdns in Hd; unfold getLocalDNSServers in Hd;
           rewrite getLocalDNSServers_loop_bad in Hd by assumption;
           injection Hd as <-; reflexivity
       end.
Qed.

(** ** The result of a successful Add (C8) *)

(** C8.  An Add that succeeds has printed, as its one and last print, the
    delegate's normalized result with the nameserver list replaced by the
    full configured DNS list and every other field unchanged; and every call
    of the Add that takes a container address was given the first address of
    the delegate's result. *)
Theorem successful_add_prints_delegate_result E args w :
  cmdAdd E args empty_world = (Ret tt, w) ->
  exists cfg pc raw result030 ip0 others printed,
    LoadWrapperConfig E (StdinData args) = inr cfg /\
    only SDelegateAdd (trace w)
    = [mkEvent (DelegateAdd pc (Delegate cfg)) (AResult (inr raw))] /\
    NewResultFromResult E raw = inr result030 /\
    IPs result030 = Some ip0 :: others /\
    only SPrint (trace w) = [mkEvent (Print printed) (AErr None)] /\
    events_after SPrint (trace w) = [] /\
    Nameservers (ResultDNS printed) = DNSServers cfg /\
    same_but_nameservers printed result030 /\
    Forall (fun ev => Forall (eq (IPString E (IPNet_IP (Address ip0))))
                             (call_containerIPs (ev_call ev)))
           (trace w).
Proof.
  intros H. remember (Ret tt) as r eqn:Hr.
  add_cases H; try discriminate Hr.
  all: norm_trace; views.
  all: eexists _, _, _, _, _, _, _; unfold same_but_nameservers.
  all: repeat match goal with |- _ /\ _ => split end.
  all: try eassumption; try reflexivity.
  all: try (symmetry; eassumption).
  all: forall_trace ltac:(cbn [call_containerIPs ev_call addRule_event NetOut_ContainerIP];
                          repeat constructor).
Qed.

(** ** The empty container handle (C9) *)

(** C9, amended.  An Add with the empty container handle never succeeds,
    makes no firewall call and deletes no store record; every store write it
    makes is keyed by the empty handle.  When the delegate call and what
    follows it go well (normalisation to a result with a first address,
    metadata decoding, store write, notification answered 200), the DNS
    filtering comes next: an entry that is no address fails the Add with the
    error of that entry, before any interface lookup; and if every entry
    parses and the interface names are resolved, the store write, the
    notification and the resolution have all been made, in this order, when
    the Add fails with the invalid Container ID error. *)
Theorem empty_handle_rejected_after_side_effects E args r w :
  ContainerID args = EmptyString ->
  cmdAdd E args empty_world = (r, w) ->
  r <> Ret tt /\
  forallb (fun s => negb (firewall_step s)) (steps (trace w)) = true /\
  only SStoreDelete (trace w) = [] /\
  Forall (fun ev => exists store ip md,
                      ev_call ev = StoreAdd store EmptyString ip md)
         (only SStoreAdd (trace w)) /\
  (forall cfg,
   LoadWrapperConfig E (StdinData args) = inr cfg ->
   forallb event_ok (trace w) = true ->
   (forall pc d raw,
      In (mkEvent (DelegateAdd pc d) (AResult (inr raw))) (trace w) ->
      exists result030 ip0 others,
        NewResultFromResult E raw = inr result030 /\
        IPs result030 = Some ip0 :: others) ->
   (exists md, UnmarshalMetadata E (StdinData args) = inr md) ->
   (forallb (parses E) (DNSServers cfg) = true ->
    r = Throw "invalid Container ID" /\
    steps (trace w)
    = [SIptablesNew; SDelegateAdd; SStoreAdd; SHttpGet]
      ++ match TemporaryUnderlayInterfaceNames cfg with
         | [] => [SGetNamesFromIPs]
         | _ :: _ => []
         end) /\
   (forall ok bad rest,
      DNSServers cfg = ok ++ bad :: rest ->
      forallb (parses E) ok = true ->
      ParseIP E bad = None ->
      r = Throw (invalidDNSServer bad) /\
      steps (trace w) = [SIptablesNew; SDelegateAdd; SStoreAdd; SHttpGet])).
Proof.
  intros Hid H.
  add_cases H.
  all: try match goal with
           | Hc : (ContainerID _ =? _)%string = false |- _ =>
               rewrite Hid in Hc; discriminate Hc
           end.
  all: rewrite ?Hid in *.
  all: views.
  all: split; [discriminate|].
  all: split; [reflexivity|].
  all: split; [reflexivity|].
  all: split; [repeat constructor; eexists _, _, _; reflexivity|].
  all: intros cfg' HLoad Hev Hnorm [md Hmd].
  all: try discriminate HLoad; injection HLoad as <-.
  all: try (exfalso; congruence).
  all: try (exfalso; edestruct Hnorm as (? & ? & ? & Hn & Hi);
            [cbn [In]; eauto 6 | congruence]).
  all: try status_case.
  all: try (failed_event Hev).
  all: split; [intros Hdns | intros ok bad tl Hsplit Hok Hbad].
  all: try match goal with
           | Hd : getLocalDNSServers _ _ = inl _ |- _ =>
               unfold getLocalDNSServers in Hd;
               first [ rewrite getLocalDNSServers_loop_ok in Hd by assumption;
                       discriminate Hd
                     | rewrite Hsplit in Hd;
                       rewrite getLocalDNSServers_loop_bad in Hd by assumption;
                       injection Hd as <- ]
           | Hd : getLocalDNSServers _ _ = inr _ |- _ =>
               apply getLocalDNSServers_inr in Hd; destruct Hd as [Hall _];
               try (exfalso; rewrite Hsplit in Hall;
                    exact (parses_all_no_bad _ _ _ _ Hall Hbad))
           end.
  all: try (split; reflexivity).
  all: override_case.
  all: split; reflexivity.
Qed.

(** ** Chain names (C10) *)











(** *** No bounded naming is free of collisions *)











(** ** The theorems at concrete hosts *)

(** C2, as stated, fails: the payload parses, the interface lookup fails,
    and Del returns that failure instead of success. *)
Lemma del_returns_interface_lookup_failure :
  ~ del_fails_only_on_config (Sample.env Sample.lookupFails) (Sample.args "c1").
Proof.
  intros Hclaim.
  specialize (Hclaim Sample.webConfig eq_refl).
  vm_compute in Hclaim. discriminate Hclaim.
Qed.

(** C5, as stated, fails: the policy agent answers 204, a 2xx status, and
    the Add aborts with the error built from that response. *)
Lemma add_aborts_on_204 :
  ~ any_2xx_continues (Sample.env Sample.agentNoContent) (Sample.args "c1").
Proof.
  intros Hclaim.
  apply (Hclaim Sample.pollURL (Sample.agentAnswer 204)).
  - vm_compute. tauto.
  - reflexivity.
  - vm_compute. reflexivity.
Qed.

(** C9, as stated, fails: the handle is empty and the delegate call
    succeeds, but the policy agent answers 500; the Add fails with the error
    built from that answer, not with the invalid Container ID error, and
    never comes to resolve the interface names. *)
Lemma empty_handle_add_fails_at_the_policy_agent :
  ~ empty_handle_always_rejected_late (Sample.env Sample.agentError)
                                      (Sample.args EmptyString) /\
  fst Edge.emptyHandleAgentErrorRun = Throw (vpaError (Sample.agentAnswer 500)) /\
  steps (trace (snd Edge.emptyHandleAgentErrorRun))
  = [SIptablesNew; SDelegateAdd; SStoreAdd; SHttpGet].
Proof.
  split; [|split; vm_compute; reflexivity].
  intros Hclaim.
  destruct (Hclaim eq_refl) as (_ & _ & Hr).
  - eexists _, _, _. vm_compute. right. left. reflexivity.
  - vm_compute in Hr. discriminate Hr.
Qed.

(** C2 at a degraded host: every step that is only logged fails. *)
Lemma cmdDel_best_effort_witness :
  LoadWrapperConfig (Sample.env Sample.degraded) (StdinData (Sample.args "c1"))
  = inr Sample.webConfig /\
  existsb del_fatal (trace (snd Sample.degradedDelRun)) = false /\
  fst Sample.degradedDelRun = Ret tt /\
  steps (trace (snd Sample.degradedDelRun))
  = [SStoreDelete; SIptablesNew; SDelegateDel; SNetInCleanup; SGetNamesFromIPs;
     SNetOutCleanup; SDelIPMasq] /\
  stderr (snd Sample.degradedDelRun)
  = flat_map del_log (trace (snd Sample.degradedDelRun)).
Proof.
  assert (Hfatal : existsb del_fatal (trace (snd Sample.degradedDelRun)) = false)
    by (vm_compute; reflexivity).
  destruct (@cmdDel_best_effort (Sample.env Sample.degraded) (Sample.args "c1")
              Sample.webConfig (fst Sample.degradedDelRun) (snd Sample.degradedDelRun)
              eq_refl (surjective_pairing _))
    as (Hlog & _ & Hgood & _).
  destruct (Hgood Hfatal) as [Hr Hsteps].
  repeat split; assumption.
Defined.

(** C3 at a host whose store refuses the write. *)
Lemma store_add_failure_witness :
  In (mkEvent (StoreAdd Sample.addStore "c1" "10.255.30.4" "{app_id:a1}")
              (AErr (Some "duplicate handle")))
     (trace (snd Sample.storeFailsRun)) /\
  fst Sample.storeFailsRun = Throw "store add: duplicate handle" /\
  exists cleanupErr,
    stderr (snd Sample.storeFailsRun)
    = ["store add: duplicate handle"; "cleaning up from error"]
      ++ match cleanupErr with
         | Some e' => [("during cleanup: removing IP masq: " ++ e')%string]
         | None => []
         end.
Proof.
  assert (Hin : In (mkEvent (StoreAdd Sample.addStore "c1" "10.255.30.4" "{app_id:a1}")
                            (AErr (Some "duplicate handle")))
                   (trace (snd Sample.storeFailsRun)))
    by (vm_compute; tauto).
  destruct (@store_add_failure_runs_masq_cleanup
              (Sample.env Sample.storeFails) (Sample.args "c1")
              (fst Sample.storeFailsRun) (snd Sample.storeFailsRun)
              _ _ _ _ _ (surjective_pairing _) Hin)
    as (cfg & pc & cleanupErr & before & _ & _ & _ & Hr & Hlog).
  split; [exact Hin|]. split; [exact Hr|]. exists cleanupErr. exact Hlog.
Defined.

(** C5 at a host whose policy agent answers 500. *)
Lemma policy_agent_failure_witness :
  LoadWrapperConfig (Sample.env Sample.agentError) (StdinData (Sample.args "c1"))
  = inr Sample.webConfig /\
  In (mkEvent (HttpGet Sample.pollURL) (AResponse (inr (Sample.agentAnswer 500))))
     (trace (snd Sample.agentErrorRun)) /\
  fst Sample.agentErrorRun = Throw (vpaError (Sample.agentAnswer 500)) /\
  events_after SHttpGet (trace (snd Sample.agentErrorRun)) = [] /\
  only SStoreDelete (trace (snd Sample.agentErrorRun)) = [].
Proof.
  assert (Hin : In (mkEvent (HttpGet Sample.pollURL)
                            (AResponse (inr (Sample.agentAnswer 500))))
                   (trace (snd Sample.agentErrorRun)))
    by (vm_compute; tauto).
  destruct (@policy_agent_failure_aborts_add
              (Sample.env Sample.agentError) (Sample.args "c1") Sample.webConfig
              (fst Sample.agentErrorRun) (snd Sample.agentErrorRun)
              _ _ eq_refl (surjective_pairing _) Hin)
    as (_ & Hkept & _ & Hr & Hafter).
  repeat split; assumption.
Defined.

(** C6 for the mappings 8080, 8443 and then host port 0. *)
Lemma bad_host_port_witness :
  LoadWrapperConfig (Sample.env (Sample.healthy Sample.badPortConfig))
                    (StdinData (Sample.args "c1"))
  = inr Sample.badPortConfig /\
  HostPort (mkPortMapping 0 22) <= 0 /\
  fst Sample.badPortRun = Throw "cannot allocate port 0" /\
  addRule_ports (trace (snd Sample.badPortRun)) = [(8080, 80); (8443, 443)] /\
  only SNetInCleanup (trace (snd Sample.badPortRun)) = [].
Proof.
  assert (Hbad : HostPort (mkPortMapping 0 22) <= 0) by (cbn; lia).
  assert (Hgood : Forall (fun p => 0 < HostPort p)
                         [mkPortMapping 8080 80; mkPortMapping 8443 443])
    by (repeat constructor).
  destruct (@bad_host_port_aborts_add
              (Sample.env (Sample.healthy Sample.badPortConfig)) (Sample.args "c1")
              Sample.badPortConfig
              [mkPortMapping 8080 80; mkPortMapping 8443 443] (mkPortMapping 0 22) []
              (fst Sample.badPortRun) (snd Sample.badPortRun)
              eq_refl eq_refl Hgood Hbad (surjective_pairing _))
    as (_ & _ & Hclean & _ & Hloop).
  destruct Hloop as (Hr & Hports & _).
  - vm_compute. tauto.
  - vm_compute. reflexivity.
  - repeat split; assumption.
Defined.

(** C7 for a DNS list with a host name in it. *)
Lemma dns_servers_filtered_witness :
  LoadWrapperConfig (Sample.env (Sample.healthy Sample.badDNSConfig))
                    (StdinData (Sample.args "c1"))
  = inr Sample.badDNSConfig /\
  ParseIP (Sample.env (Sample.healthy Sample.badDNSConfig)) "dns.example.com" = None /\
  fst Sample.badDNSRun = Throw (invalidDNSServer "dns.example.com") /\
  forallb (fun s => negb (firewall_step s)) (steps (trace (snd Sample.badDNSRun))) = true.
Proof.
  destruct (@dns_servers_filtered_to_link_local
              (Sample.env (Sample.healthy Sample.badDNSConfig)) (Sample.args "c1")
              Sample.badDNSConfig (fst Sample.badDNSRun) (snd Sample.badDNSRun)
              eq_refl (surjective_pairing _))
    as (_ & _ & Hbad).
  destruct (Hbad ["169.254.0.2"] "dns.example.com" ["8.8.8.8"] eq_refl eq_refl eq_refl)
    as (_ & _ & Hfw & Hr).
  split; [reflexivity|]. split; [reflexivity|]. split; [|exact Hfw].
  apply Hr; [vm_compute; reflexivity | vm_compute; tauto].
Defined.

(** C8 at a healthy host. *)
Lemma successful_add_witness :
  cmdAdd (Sample.env (Sample.healthy Sample.webConfig)) (Sample.args "c1") empty_world
  = (Ret tt, snd Sample.healthyRun) /\
  exists printed,
    only SPrint (trace (snd Sample.healthyRun)) = [mkEvent (Print printed) (AErr None)] /\
    Nameservers (ResultDNS printed) = Sample.dns /\
    same_but_nameservers printed Sample.delegateResult.
Proof.
  assert (Hrun : cmdAdd (Sample.env (Sample.healthy Sample.webConfig))
                        (Sample.args "c1") empty_world
                 = (Ret tt, snd Sample.healthyRun))
    by (vm_compute; reflexivity).
  destruct (@successful_add_prints_delegate_result _ _ _ Hrun)
    as (cfg & pc & raw & result030 & ip0 & others & printed
        & HLoad & _ & Hnorm & _ & Hprint & _ & Hdns & Hsame & _).
  injection HLoad as <-. injection Hnorm as <-.
  split; [exact Hrun|]. exists printed. repeat split; try apply Hsame; assumption.
Defined.

(** C9 at a healthy host, and at one whose DNS list has a host name in it. *)
Lemma empty_handle_witness :
  ContainerID (Sample.args EmptyString) = EmptyString /\
  fst Sample.emptyHandleRun = Throw "invalid Container ID" /\
  steps (trace (snd Sample.emptyHandleRun))
  = [SIptablesNew; SDelegateAdd; SStoreAdd; SHttpGet; SGetNamesFromIPs] /\
  only SStoreDelete (trace (snd Sample.emptyHandleRun)) = [] /\
  fst Edge.emptyHandleBadDNSRun = Throw (invalidDNSServer "dns.example.com") /\
  steps (trace (snd Edge.emptyHandleBadDNSRun))
  = [SIptablesNew; SDelegateAdd; SStoreAdd; SHttpGet].
Proof.
  destruct (@empty_handle_rejected_after_side_effects
              (Sample.env (Sample.healthy Sample.webConfig)) (Sample.args EmptyString)
              (fst Sample.emptyHandleRun) (snd Sample.emptyHandleRun)
              eq_refl (surjective_pairing _))
    as (_ & _ & Hkept & _ & Hlate).
  destruct (Hlate Sample.webConfig eq_refl) as [Hgood _].
  - vm_compute. reflexivity.
  - intros pc d raw _. eexists _, _, _. split; reflexivity.
  - eexists. reflexivity.
  - destruct Hgood as [Hr Hsteps]; [vm_compute; reflexivity|].
    destruct (@empty_handle_rejected_after_side_effects
                (Sample.env (Sample.healthy Sample.badDNSConfig))
                (Sample.args EmptyString)
                (fst Edge.emptyHandleBadDNSRun) (snd Edge.emptyHandleBadDNSRun)
                eq_refl (surjective_pairing _))
      as (_ & _ & _ & _ & Hlate').
    destruct (Hlate' Sample.badDNSConfig eq_refl) as [_ Hbad].
    + vm_compute. reflexivity.
    + intros pc d raw _. eexists _, _, _. split; reflexivity.
    + eexists. reflexivity.
    + destruct (Hbad ["169.254.0.2"] "dns.example.com" ["8.8.8.8"]
                     eq_refl eq_refl eq_refl) as [Hr' Hsteps'].
      repeat split; assumption.
Defined.


(** * Further properties of the code *)

(** ** [getLocalDNSServers] *)

Section DNSCompose.

Variable E : Env.

(** The list built so far only ever grows at its end. *)
Lemma getLocalDNSServers_loop_acc all :
  forall acc,
    getLocalDNSServers_loop E all acc
    = match getLocalDNSServers_loop E all [] with
      | inl err => inl err
      | inr found => inr (acc ++ found)
      end.
Proof.
  induction all as [|entry all IH]; intros acc; cbn [getLocalDNSServers_loop].
  - now rewrite app_nil_r.
  - destruct (ParseIP E entry) as [dnsIP|]; [|reflexivity].
    destruct (IsLinkLocalUnicast E dnsIP); [|apply IH].
    rewrite (IH (acc ++ [entry])), (IH ([] ++ [entry])).
    destruct (getLocalDNSServers_loop E all []) as [err|found]; [reflexivity|].
    now rewrite <- app_assoc.
Qed.

Lemma getLocalDNSServers_loop_app l1 l2 :
  forall acc,
    getLocalDNSServers_loop E (l1 ++ l2) acc
    = match getLocalDNSServers_loop E l1 acc with
      | inl err => inl err
      | inr found => getLocalDNSServers_loop E l2 found
      end.
Proof.
  induction l1 as [|entry l1 IH]; intros acc; cbn [app getLocalDNSServers_loop].
  - reflexivity.
  - destruct (ParseIP E entry) as [dnsIP|]; [|reflexivity].
    destruct (IsLinkLocalUnicast E dnsIP); apply IH.
Qed.

(** X1.  Filtering a concatenation: the first failure wins, from the left;
    when both halves are fine the result is the concatenation of the two
    results. *)
Theorem getLocalDNSServers_app l1 l2 :
  getLocalDNSServers E (l1 ++ l2)
  = match getLocalDNSServers E l1 with
    | inl err => inl err
    | inr found1 =>
        match getLocalDNSServers E l2 with
        | inl err => inl err
        | inr found2 => inr (found1 ++ found2)
        end
    end.
Proof.
  unfold getLocalDNSServers. rewrite getLocalDNSServers_loop_app.
  destruct (getLocalDNSServers_loop E l1 []) as [err|found1]; [reflexivity|].
  apply getLocalDNSServers_loop_acc.
Qed.

Lemma filter_parses all :
  forallb (parses E) (filter (isLocalDNS E) all) = true.
Proof.
  apply forallb_forall. intros entry Hin.
  apply filter_In in Hin. destruct Hin as [_ Hlocal].
  unfold isLocalDNS in Hlocal. unfold parses.
  destruct (ParseIP E entry); [reflexivity | discriminate].
Qed.

Lemma filter_isLocalDNS_twice all :
  filter (isLocalDNS E) (filter (isLocalDNS E) all) = filter (isLocalDNS E) all.
Proof.
  induction all as [|entry all IH]; [reflexivity|].
  cbn [filter]. destruct (isLocalDNS E entry) eqn:Hentry; [|exact IH].
  cbn [filter]. rewrite Hentry, IH. reflexivity.
Qed.

(** X2.  The list that [getLocalDNSServers] returns is a fixed point: every
    entry of it parses and is link-local, it is no longer than the input,
    and filtering it again returns it unchanged. *)
Theorem getLocalDNSServers_idempotent all found :
  getLocalDNSServers E all = inr found ->
  forallb (isLocalDNS E) found = true /\
  (length found <= length all)%nat /\
  getLocalDNSServers E found = inr found.
Proof.
  intros Hrun. apply getLocalDNSServers_inr in Hrun. destruct Hrun as [_ ->].
  split; [|split].
  - apply forallb_forall. intros entry Hin. now apply filter_In in Hin.
  - apply filter_length_le.
  - unfold getLocalDNSServers.
    rewrite getLocalDNSServers_loop_ok by apply filter_parses.
    now rewrite filter_isLocalDNS_twice.
Qed.

End DNSCompose.

(** X2 for a list with a global and two link-local servers. *)
Lemma getLocalDNSServers_idempotent_witness :
  getLocalDNSServers Edge.healthyEnv Sample.dns = inr ["169.254.0.2"; "fe80::1"] /\
  getLocalDNSServers Edge.healthyEnv ["169.254.0.2"; "fe80::1"]
  = inr ["169.254.0.2"; "fe80::1"].
Proof.
  assert (Hrun : getLocalDNSServers Edge.healthyEnv Sample.dns
                 = inr ["169.254.0.2"; "fe80::1"]) by reflexivity.
  split; [exact Hrun|].
  exact (proj2 (proj2 (getLocalDNSServers_idempotent _ _ Hrun))).
Defined.

(** ** [cmdAdd]: failures *)

Lemma last_two {A} (a b : A) l d : last (a :: b :: l) d = last (b :: l) d.
Proof. reflexivity. Qed.

Lemma last_app_cons {A} (l1 : list A) a l2 d :
  last (l1 ++ a :: l2) d = last (a :: l2) d.
Proof.
  induction l1 as [|b l1 IH]; [reflexivity|].
  cbn [app]. rewrite <- IH. destruct l1; reflexivity.
Qed.

(** X3.  An Add stops at the first call that fails, and reports it.  Let a
    call of the Add other than the NetIn initialization and the compensating
    masquerade removal answer with the error [err].  Then the Add returns
    that error behind the prefix of the call's stage; no other call of the
    Add has failed, those two apart; and the failed call is the last one
    made, but for a failed store write, which is followed by the masquerade
    removal and nothing else. *)
Theorem add_stops_at_first_failure E args r w s err :
  cmdAdd E args empty_world = (r, w) ->
  In (s, Some err) (outline (trace w)) ->
  s <> SNetInInitialize ->
  s <> SDelIPMasq ->
  r = Throw (add_error_prefix s ++ err)%string /\
  (forall s' err',
     In (s', Some err') (outline (trace w)) ->
     (s', err') = (s, err) \/ s' = SNetInInitialize \/ s' = SDelIPMasq) /\
  match s with
  | SStoreAdd =>
      exists cleanup,
        outline (events_after SStoreAdd (trace w)) = [(SDelIPMasq, cleanup)]
  | _ => last (outline (trace w)) (s, None) = (s, Some err)
  end.
Proof.
  intros H Hin Hinit Hmasq.
  add_cases H.
  all: norm_trace; views.
  all: in_inv Hin; try discriminate Hin.
  all: injection Hin; intros; subst; try contradiction; clear Hin.
  all: split; [first [reflexivity | eassumption]|].
  all: split;
    [intros s' err' Hin'; in_inv Hin'; try discriminate Hin';
     injection Hin'; intros; subst; auto|].
  all: try (eexists; reflexivity).
  all: repeat rewrite last_two.
  all: try rewrite app_comm_cons, last_app_cons.
  all: reflexivity.
Qed.

(** X3 at a host whose delegate plugin is missing. *)
Lemma add_stops_at_first_failure_witness :
  In (SDelegateAdd, Some "exec: silk-cni: not found")
     (outline (trace (snd Edge.delegateFailsRun))) /\
  fst Edge.delegateFailsRun = Throw "delegate call: exec: silk-cni: not found" /\
  last (outline (trace (snd Edge.delegateFailsRun))) (SDelegateAdd, None)
  = (SDelegateAdd, Some "exec: silk-cni: not found").
Proof.
  assert (Hin : In (SDelegateAdd, Some "exec: silk-cni: not found")
                   (outline (trace (snd Edge.delegateFailsRun))))
    by (vm_compute; tauto).
  destruct (@add_stops_at_first_failure
              (Sample.env Edge.delegateFails) (Sample.args "c1")
              (fst Edge.delegateFailsRun) (snd Edge.delegateFailsRun)
              SDelegateAdd _ (surjective_pairing _) Hin)
    as (Hr & _ & Hlast); try discriminate.
  split; [exact Hin|]. split; [exact Hr | exact Hlast].
Defined.

(** ** [cmdAdd]: what a run looks like *)

Lemma forallb_addRule_events (f : Event -> bool) p handle ia ip err l :
  (forall m, f (addRule_event p handle ia ip err m) = true) ->
  forallb f (map (addRule_event p handle ia ip err) l) = true.
Proof.
  intros Hf. apply forallb_forall. intros ev Hin.
  apply in_map_iff in Hin. destruct Hin as (m & <- & _). apply Hf.
Qed.

(** X4.  An Add that succeeds has passed every check and made every call:
    the handle is not empty, every host port is positive, every DNS entry
    parses, every call but possibly the NetIn initialization went well (the
    policy agent answered 200), nothing was written to the error stream, the
    calls were made in the one order of the code, and the ingress rules
    requested are those of the configured port mappings, one each, in their
    order, for the handle and the instance address of the config. *)
Theorem successful_add_ran_every_step E args cfg w :
  LoadWrapperConfig E (StdinData args) = inr cfg ->
  cmdAdd E args empty_world = (Ret tt, w) ->
  ContainerID args <> EmptyString /\
  Forall (fun m => 0 < HostPort m) (PortMappings (RuntimeCfg cfg)) /\
  forallb (parses E) (DNSServers cfg) = true /\
  forallb event_ok_or_ingress_init (trace w) = true /\
  stderr w = [] /\
  steps (trace w)
  = [SIptablesNew; SDelegateAdd; SStoreAdd; SHttpGet]
    ++ match TemporaryUnderlayInterfaceNames cfg with
       | [] => [SGetNamesFromIPs]
       | _ :: _ => []
       end
    ++ [SNetOutInitialize; SNetInInitialize]
    ++ map (fun _ => SNetInAddRule) (PortMappings (RuntimeCfg cfg))
    ++ [SNetOutBulkInsertRules; SAddIPMasq; SPrint] /\
  exists p ip,
    only SNetInAddRule (trace w)
    = map (addRule_event p (ContainerID args) (InstanceAddress cfg) ip None)
          (PortMappings (RuntimeCfg cfg)).
Proof.
  intros HLoad H. remember (Ret tt) as r eqn:Hr.
  add_cases H; try discriminate Hr; try discriminate HLoad; injection HLoad as ->.
  all: subst; rewrite app_nil_r in *.
  all: match goal with
       | Hs : PortMappings _ = _ |- _ => rewrite Hs
       end.
  all: match goal with
       | Hd : getLocalDNSServers _ _ = inr _ |- _ =>
           apply getLocalDNSServers_inr in Hd; destruct Hd as [Hall _]
       end.
  all: status_case.
  all: split; [now apply String.eqb_neq|].
  all: split; [assumption|].
  all: split; [assumption|].
  all: split;
    [norm_trace; apply forallb_forall; intros ev Hin; in_inv Hin;
     rewrite <- Hin; unfold event_ok_or_ingress_init, addRule_event;
     cbn [event_ok answer_ok answer_err ev_answer ev_call step_of Step_eqb];
     unfold StatusOK;
     repeat match goal with
            | Hs : (_ =? 200) = true |- _ => rewrite Hs
            end;
     rewrite ?orb_true_r; reflexivity|].
  all: split; [reflexivity|].
  all: norm_trace; views.
  all: try override_case.
  all: cbn [app]; rewrite <- ?app_assoc, ?app_nil_r; cbn [app].
  all: split; [reflexivity|].
  all: eexists _, _; reflexivity.
Qed.

(** X4 at a healthy host. *)
Lemma successful_add_ran_every_step_witness :
  cmdAdd Edge.healthyEnv (Sample.args "c1") empty_world
  = (Ret tt, snd Sample.healthyRun) /\
  steps (trace (snd Sample.healthyRun))
  = [SIptablesNew; SDelegateAdd; SStoreAdd; SHttpGet; SGetNamesFromIPs;
     SNetOutInitialize; SNetInInitialize; SNetInAddRule;
     SNetOutBulkInsertRules; SAddIPMasq; SPrint] /\
  stderr (snd Sample.healthyRun) = [].
Proof.
  assert (Hrun : cmdAdd Edge.healthyEnv (Sample.args "c1") empty_world
                 = (Ret tt, snd Sample.healthyRun))
    by (vm_compute; reflexivity).
  destruct (@successful_add_ran_every_step Edge.healthyEnv (Sample.args "c1")
              Sample.webConfig (snd Sample.healthyRun) eq_refl Hrun)
    as (_ & _ & _ & _ & Hquiet & Hsteps & _).
  split; [exact Hrun|]. split; [exact Hsteps | exact Hquiet].
Defined.

(** X5.  An Add never deletes a store record, never calls the delegate's
    delete and never cleans up a chain.  It removes a masquerade rule
    exactly when its store write has failed, and it writes to the error
    stream exactly then. *)
Theorem add_never_tears_down E args r w :
  cmdAdd E args empty_world = (r, w) ->
  forallb (fun s => negb (teardown_step s)) (steps (trace w)) = true /\
  (In SDelIPMasq (steps (trace w))
   <-> exists err, In (SStoreAdd, Some err) (outline (trace w))) /\
  (stderr w <> [] <-> In SDelIPMasq (steps (trace w))).
Proof.
  intros H.
  add_cases H.
  all: norm_trace; views.
  all: split;
    [apply forallb_forall; intros s Hs; in_inv Hs; subst; reflexivity|].
  all: split; [split; [intros Hin|intros [err Hin]]|split; [intros Hlog|intros Hin]].
  all: try (refute_in Hin).
  all: try (exfalso; apply Hlog; reflexivity).
  all: try (eexists; prove_in).
  all: try prove_in.
  all: try (destruct ans2; discriminate).
Qed.

(** X5 at a host whose store refuses the write. *)
Lemma add_never_tears_down_witness :
  In SDelIPMasq (steps (trace (snd Sample.storeFailsRun))) /\
  stderr (snd Sample.storeFailsRun) <> [] /\
  forallb (fun s => negb (teardown_step s))
          (steps (trace (snd Sample.storeFailsRun))) = true.
Proof.
  destruct (@add_never_tears_down _ _ (fst Sample.storeFailsRun)
              (snd Sample.storeFailsRun) (surjective_pairing Sample.storeFailsRun))
    as (Hnone & Hmasq & Hlog).
  assert (Hin : In SDelIPMasq (steps (trace (snd Sample.storeFailsRun))))
    by (vm_compute; tauto).
  split; [exact Hin|]. split; [exact (proj2 Hlog Hin) | exact Hnone].
Defined.

(** X6.  An Add panics in one case only: the delegate call has succeeded and
    its result normalises to one whose address list is empty or starts with
    a nil entry.  Then nothing but the rule table handle and the delegate
    has been called, and nothing was logged.  And whenever the delegate's
    result normalises to such a result, the Add panics. *)
Theorem add_panics_without_address E args r w :
  cmdAdd E args empty_world = (r, w) ->
  (forall msg,
     r = Panic msg ->
     steps (trace w) = [SIptablesNew; SDelegateAdd] /\ stderr w = [] /\
     exists pc delegate raw result030,
       In (mkEvent (DelegateAdd pc delegate) (AResult (inr raw))) (trace w) /\
       NewResultFromResult E raw = inr result030 /\
       (IPs result030 = [] \/ exists others, IPs result030 = None :: others)) /\
  (forall pc delegate raw result030,
     In (mkEvent (DelegateAdd pc delegate) (AResult (inr raw))) (trace w) ->
     NewResultFromResult E raw = inr result030 ->
     IPs result030 = [] \/ (exists others, IPs result030 = None :: others) ->
     exists msg, r = Panic msg).
Proof.
  intros H.
  add_cases H.
  all: split;
    [intros msg Hr;
     first [ discriminate Hr
           | split; [reflexivity|]; split; [reflexivity|];
             eexists _, _, _, _; split; [cbn [In]; eauto|];
             split; [eassumption|];
             first [left; eassumption | right; eexists; eassumption] ]
    |intros pc d raw res Hin Hnorm [Hips | [others Hips]]].
  all: try (eexists; reflexivity).
  all: exfalso; norm_trace; in_inv Hin; try discriminate Hin.
  all: injection Hin; intros; subst; congruence.
Qed.

(** X6 at a host whose delegate assigns no address, and at one whose
    delegate reports a nil entry. *)
Lemma add_panics_without_address_witness :
  IPs Edge.noAddressResult = [] /\
  (exists msg, fst Edge.noAddressRun = Panic msg) /\
  IPs Edge.nilAddressResult = [None] /\
  (exists msg, fst Edge.nilAddressRun = Panic msg).
Proof.
  assert (Hin : In (mkEvent (DelegateAdd
                               (mkPluginController
                                  (mkLockedIPTables "/var/vcap/data/garden-cni/iptables.lock"))
                               "{cniVersion:0.3.1,type:silk}")
                            (AResult (inr "{ips:[10.255.30.4/32]}")))
                   (trace (snd Edge.noAddressRun)))
    by (vm_compute; tauto).
  assert (Hin' : In (mkEvent (DelegateAdd
                                (mkPluginController
                                   (mkLockedIPTables "/var/vcap/data/garden-cni/iptables.lock"))
                                "{cniVersion:0.3.1,type:silk}")
                             (AResult (inr "{ips:[10.255.30.4/32]}")))
                    (trace (snd Edge.nilAddressRun)))
    by (vm_compute; tauto).
  destruct (@add_panics_without_address Edge.noAddressEnv (Sample.args "c1")
              (fst Edge.noAddressRun) (snd Edge.noAddressRun) (surjective_pairing _))
    as [_ Hpanic].
  destruct (@add_panics_without_address Edge.nilAddressEnv (Sample.args "c1")
              (fst Edge.nilAddressRun) (snd Edge.nilAddressRun) (surjective_pairing _))
    as [_ Hpanic'].
  split; [reflexivity|].
  split; [exact (Hpanic _ _ _ Edge.noAddressResult Hin eq_refl (or_introl eq_refl))|].
  split; [reflexivity|].
  exact (Hpanic' _ _ _ Edge.nilAddressResult Hin' eq_refl
           (or_intror (ex_intro _ [] eq_refl))).
Defined.

(** X7.  A payload that does not decode: both verbs return the decoding
    error as it is, call no collaborator and write nothing. *)
Theorem unparsable_payload_has_no_effect E args err :
  LoadWrapperConfig E (StdinData args) = inl err ->
  cmdAdd E args empty_world = (Throw err, empty_world) /\
  cmdDel E args empty_world = (Throw err, empty_world).
Proof.
  intros HLoad. split.
  - unfold cmdAdd, orReturn.
    rewrite run_bind_assoc, run_bind_ret, HLoad. reflexivity.
  - now apply cmdDel_config_failure.
Qed.

(** X7 for a payload that is cut short. *)
Lemma unparsable_payload_witness :
  LoadWrapperConfig Edge.badPayloadEnv (StdinData (Sample.args "c1"))
  = inl "unexpected end of JSON input" /\
  cmdAdd Edge.badPayloadEnv (Sample.args "c1") empty_world
  = (Throw "unexpected end of JSON input", empty_world) /\
  cmdDel Edge.badPayloadEnv (Sample.args "c1") empty_world
  = (Throw "unexpected end of JSON input", empty_world).
Proof.
  split; [reflexivity|].
  exact (@unparsable_payload_has_no_effect Edge.badPayloadEnv (Sample.args "c1")
           "unexpected end of JSON input" eq_refl).
Defined.

(** ** [cmdDel]: what a run looks like *)

(** X8.  A Del never panics, never calls an operation that sets state up
    (delegate add, store write, chain initialization, rule insertion,
    masquerade add, notification, print) and makes each of its calls at most
    once.  When every call it makes goes well it writes nothing to the error
    stream, and it fails only if the payload did not decode. *)
Theorem del_never_sets_up E args r w :
  cmdDel E args empty_world = (r, w) ->
  (forall msg, r <> Panic msg) /\
  forallb (fun s => negb (setup_step s)) (steps (trace w)) = true /\
  NoDup (steps (trace w)) /\
  (forallb event_ok (trace w) = true ->
   stderr w = [] /\ (r = Ret tt \/ trace w = [])).
Proof.
  intros H.
  del_cases H.
  all: split; [intros msg; discriminate|].
  all: split; [reflexivity|].
  all: split; [cbn [steps step_of ev_call];
               repeat constructor; cbn [In]; intuition discriminate|].
  all: intros Hev;
       cbn [forallb event_ok answer_ok answer_err ev_answer andb] in Hev.
  all: repeat match goal with
              | a : option error |- _ => destruct a; cbn [andb] in Hev
              end;
       try discriminate Hev.
  all: split; [reflexivity | auto].
Qed.

(** X8 at a healthy host. *)
Lemma del_never_sets_up_witness :
  forallb event_ok (trace (snd Sample.healthyDelRun)) = true /\
  stderr (snd Sample.healthyDelRun) = [] /\
  NoDup (steps (trace (snd Sample.healthyDelRun))).
Proof.
  destruct (@del_never_sets_up Edge.healthyEnv (Sample.args "c1")
              (fst Sample.healthyDelRun) (snd Sample.healthyDelRun)
              (surjective_pairing _))
    as (_ & _ & Honce & Hquiet).
  assert (Hev : forallb event_ok (trace (snd Sample.healthyDelRun)) = true)
    by (vm_compute; reflexivity).
  split; [exact Hev|]. split; [exact (proj1 (Hquiet Hev)) | exact Honce].
Defined.

(** ** What the two verbs share *)

(** Every chain manager of an Add gets the interface names the config or
    the lookup gives; a lookup, if made, is for the underlay addresses. *)
Lemma add_interface_names E args cfg r w :
  LoadWrapperConfig E (StdinData args) = inr cfg ->
  cmdAdd E args empty_world = (r, w) ->
  Forall (names_resolved cfg (trace w))
         (flat_map (fun ev => call_interfaceNames (ev_call ev)) (trace w)) /\
  (TemporaryUnderlayInterfaceNames cfg <> [] -> only SGetNamesFromIPs (trace w) = []) /\
  (forall ips ans,
     In (mkEvent (GetNamesFromIPs ips) ans) (trace w) -> ips = UnderlayIPs cfg).
Proof.
  intros HLoad H.
  add_cases H; try discriminate HLoad; injection HLoad as ->.
  all: norm_trace; unfold names_resolved.
  all: try override_case.
  all: split;
    [apply Forall_flat_map;
     forall_trace ltac:(cbn [call_interfaceNames ev_call addRule_event
                             NetOut_HostInterfaceNames NetIn_HostInterfaceNames];
                        repeat constructor);
     try reflexivity;
     cbn; auto|].
  all: split; [intros Hover; views; first [reflexivity | congruence]|].
  all: intros ips ans' Hin; in_inv Hin; try discriminate Hin.
  all: injection Hin; intros; subst; reflexivity.
Qed.

(** In a Del the NetIn cleanup comes before the names are resolved and gets
    none; the NetOut cleanup gets the resolved names. *)
Lemma del_interface_names E args cfg r w :
  LoadWrapperConfig E (StdinData args) = inr cfg ->
  cmdDel E args empty_world = (r, w) ->
  (forall p handle ans,
     In (mkEvent (NetInCleanup p handle) ans) (trace w) ->
     NetIn_HostInterfaceNames p = []) /\
  (forall p ans,
     In (mkEvent (NetOutCleanup p) ans) (trace w) ->
     names_resolved cfg (trace w) (NetOut_HostInterfaceNames p)) /\
  (TemporaryUnderlayInterfaceNames cfg <> [] -> only SGetNamesFromIPs (trace w) = []) /\
  (forall ips ans,
     In (mkEvent (GetNamesFromIPs ips) ans) (trace w) -> ips = UnderlayIPs cfg).
Proof.
  intros HLoad H.
  del_cases H; try discriminate HLoad; injection HLoad as ->.
  all: unfold names_resolved.
  all: try override_case.
  all: split; [intros p hd ans' Hin; in_inv Hin; try discriminate Hin;
               injection Hin; intros; subst; reflexivity|].
  all: split; [intros p ans' Hin; in_inv Hin; try discriminate Hin;
               injection Hin; intros; subst; first [reflexivity | cbn; auto]|].
  all: split; [intros Hover; first [reflexivity | congruence]|].
  all: intros ips ans' Hin; in_inv Hin; try discriminate Hin.
  all: injection Hin; intros; subst; reflexivity.
Qed.

(** X9.  The override of the interface names wins in both verbs: with an
    override in the config neither verb looks names up, and the chain
    managers get the override; without one they get the names a lookup for
    the configured underlay addresses answered.  The NetIn cleanup of a Del
    is the exception: it runs before the names are resolved and gets no
    names at all. *)
Theorem interface_names_resolved_once E args cfg ra wa rd wd :
  LoadWrapperConfig E (StdinData args) = inr cfg ->
  cmdAdd E args empty_world = (ra, wa) ->
  cmdDel E args empty_world = (rd, wd) ->
  Forall (names_resolved cfg (trace wa))
         (flat_map (fun ev => call_interfaceNames (ev_call ev)) (trace wa)) /\
  (forall p ans,
     In (mkEvent (NetOutCleanup p) ans) (trace wd) ->
     names_resolved cfg (trace wd) (NetOut_HostInterfaceNames p)) /\
  (forall p handle ans,
     In (mkEvent (NetInCleanup p handle) ans) (trace wd) ->
     NetIn_HostInterfaceNames p = []) /\
  (TemporaryUnderlayInterfaceNames cfg <> [] ->
   only SGetNamesFromIPs (trace wa) = [] /\ only SGetNamesFromIPs (trace wd) = []) /\
  (forall ips ans,
     In (mkEvent (GetNamesFromIPs ips) ans) (trace wa ++ trace wd) ->
     ips = UnderlayIPs cfg).
Proof.
  intros HLoad Ha Hd.
  destruct (@add_interface_names _ _ _ _ _ HLoad Ha) as (Hnames & Hquiet & Hips).
  destruct (@del_interface_names _ _ _ _ _ HLoad Hd) as (Hin' & Hout & Hquiet' & Hips').
  repeat split; auto.
  intros ips ans Hin. apply in_app_or in Hin. destruct Hin; eauto.
Qed.

(** X9 for a config that names the interfaces itself. *)
Lemma interface_names_resolved_once_witness :
  LoadWrapperConfig Edge.overrideEnv (StdinData (Sample.args "c1"))
  = inr Edge.overrideConfig /\
  TemporaryUnderlayInterfaceNames Edge.overrideConfig <> [] /\
  only SGetNamesFromIPs (trace (snd Edge.overrideAddRun)) = [] /\
  only SGetNamesFromIPs (trace (snd Edge.overrideDelRun)) = [].
Proof.
  destruct (@interface_names_resolved_once Edge.overrideEnv (Sample.args "c1")
              Edge.overrideConfig
              (fst Edge.overrideAddRun) (snd Edge.overrideAddRun)
              (fst Edge.overrideDelRun) (snd Edge.overrideDelRun)
              eq_refl (surjective_pairing _) (surjective_pairing _))
    as (_ & _ & _ & Hquiet & _).
  assert (Hover : TemporaryUnderlayInterfaceNames Edge.overrideConfig <> [])
    by discriminate.
  split; [reflexivity|]. split; [exact Hover|]. exact (Hquiet Hover).
Defined.

(** Handles and lock files of the calls of an Add. *)
Lemma add_handle_and_lock E args cfg r w :
  LoadWrapperConfig E (StdinData args) = inr cfg ->
  cmdAdd E args empty_world = (r, w) ->
  Forall (eq (ContainerID args))
         (flat_map (fun ev => call_handles (ev_call ev)) (trace w)) /\
  Forall (eq (IPTablesLockFile cfg))
         (flat_map (fun ev => call_lockFiles (ev_call ev)) (trace w)).
Proof.
  intros HLoad H.
  add_cases H; try discriminate HLoad; injection HLoad as ->.
  all: norm_trace.
  all: split; apply Forall_flat_map;
       forall_trace ltac:(cbn [call_handles call_lockFiles ev_call addRule_event
                               NetOut_ContainerHandle NetOut_IPTables NetIn_IPTables
                               PC_IPTables LockFile];
                          repeat constructor).
Qed.

(** Handles and lock files of the calls of a Del. *)
Lemma del_handle_and_lock E args cfg r w :
  LoadWrapperConfig E (StdinData args) = inr cfg ->
  cmdDel E args empty_world = (r, w) ->
  Forall (eq (ContainerID args))
         (flat_map (fun ev => call_handles (ev_call ev)) (trace w)) /\
  Forall (eq (IPTablesLockFile cfg))
         (flat_map (fun ev => call_lockFiles (ev_call ev)) (trace w)).
Proof.
  intros HLoad H.
  del_cases H; try discriminate HLoad; injection HLoad as ->.
  all: split; apply Forall_flat_map;
       forall_trace ltac:(cbn [call_handles call_lockFiles ev_call
                               NetOut_ContainerHandle NetOut_IPTables NetIn_IPTables
                               PC_IPTables LockFile];
                          repeat constructor).
Qed.

(** X10.  Every call of an Add and of a Del that takes a container handle
    is given the handle of the invocation, and every call that goes through
    the rule-table accessor (delegate, chain managers, masquerade toggle)
    goes through the one guarded by the lock file of the config. *)
Theorem verbs_share_handle_and_lock E args cfg ra wa rd wd :
  LoadWrapperConfig E (StdinData args) = inr cfg ->
  cmdAdd E args empty_world = (ra, wa) ->
  cmdDel E args empty_world = (rd, wd) ->
  Forall (eq (ContainerID args))
         (flat_map (fun ev => call_handles (ev_call ev)) (trace wa ++ trace wd)) /\
  Forall (eq (IPTablesLockFile cfg))
         (flat_map (fun ev => call_lockFiles (ev_call ev)) (trace wa ++ trace wd)).
Proof.
  intros HLoad Ha Hd.
  destruct (@add_handle_and_lock _ _ _ _ _ HLoad Ha) as [Hha Hla].
  destruct (@del_handle_and_lock _ _ _ _ _ HLoad Hd) as [Hhd Hld].
  rewrite !flat_map_app. split; apply Forall_app; split; assumption.
Qed.

(** X10 at a healthy host. *)
Lemma verbs_share_handle_and_lock_witness :
  LoadWrapperConfig Edge.healthyEnv (StdinData (Sample.args "c1"))
  = inr Sample.webConfig /\
  Forall (eq "c1")
         (flat_map (fun ev => call_handles (ev_call ev))
                   (trace (snd Sample.healthyRun) ++ trace (snd Sample.healthyDelRun))).
Proof.
  split; [reflexivity|].
  exact (proj1 (@verbs_share_handle_and_lock Edge.healthyEnv (Sample.args "c1")
                  Sample.webConfig
                  (fst Sample.healthyRun) (snd Sample.healthyRun)
                  (fst Sample.healthyDelRun) (snd Sample.healthyDelRun)
                  eq_refl (surjective_pairing _) (surjective_pairing _))).
Defined.

(** The store an Add writes to. *)
Lemma add_store E args cfg r w :
  LoadWrapperConfig E (StdinData args) = inr cfg ->
  cmdAdd E args empty_world = (r, w) ->
  Forall (eq {| LockerFile := Datastore cfg ++ "_lock";
                DataFilePath := Datastore cfg;
                VersionFilePath := Datastore cfg ++ "_version";
                LockedFilePath := Datastore cfg ++ "_lock";
                FileOwner := "vcap";
                FileGroup := "vcap" |}%string)
         (flat_map (fun ev => call_stores (ev_call ev)) (trace w)).
Proof.
  intros HLoad H.
  add_cases H; try discriminate HLoad; injection HLoad as ->.
  all: norm_trace.
  all: apply Forall_flat_map;
       forall_trace ltac:(cbn [call_stores ev_call addRule_event];
                          repeat constructor).
Qed.

(** The store a Del deletes from. *)
Lemma del_store E args cfg r w :
  LoadWrapperConfig E (StdinData args) = inr cfg ->
  cmdDel E args empty_world = (r, w) ->
  Forall (eq {| LockerFile := Datastore cfg ++ "_lock";
                DataFilePath := Datastore cfg;
                VersionFilePath := Datastore cfg ++ "_version";
                LockedFilePath := EmptyString;
                FileOwner := EmptyString;
                FileGroup := EmptyString |}%string)
         (flat_map (fun ev => call_stores (ev_call ev)) (trace w)).
Proof.
  intros HLoad H.
  del_cases H; try discriminate HLoad; injection HLoad as ->.
  all: apply Forall_flat_map;
       forall_trace ltac:(cbn [call_stores ev_call]; repeat constructor).
Qed.

(** X11.  The store an Add writes to and the store a Del deletes from are
    the same files: the data file of the config, its version file and its
    lock.  They differ in the rest: the Add's store names the owner and
    group vcap and the locked file path, the Del's store leaves all three
    empty. *)
Theorem verbs_share_store_files E args cfg ra wa rd wd sa sd :
  LoadWrapperConfig E (StdinData args) = inr cfg ->
  cmdAdd E args empty_world = (ra, wa) ->
  cmdDel E args empty_world = (rd, wd) ->
  In sa (flat_map (fun ev => call_stores (ev_call ev)) (trace wa)) ->
  In sd (flat_map (fun ev => call_stores (ev_call ev)) (trace wd)) ->
  DataFilePath sa = Datastore cfg /\
  DataFilePath sd = DataFilePath sa /\
  VersionFilePath sd = VersionFilePath sa /\
  LockerFile sd = LockerFile sa /\
  (FileOwner sa, FileGroup sa, LockedFilePath sa) = ("vcap", "vcap", LockerFile sa) /\
  (FileOwner sd, FileGroup sd, LockedFilePath sd)
  = (EmptyString, EmptyString, EmptyString).
Proof.
  intros HLoad Ha Hd Hsa Hsd.
  pose proof (@add_store _ _ _ _ _ HLoad Ha) as Hadd.
  pose proof (@del_store _ _ _ _ _ HLoad Hd) as Hdel.
  rewrite Forall_forall in Hadd, Hdel.
  rewrite <- (Hadd sa Hsa), <- (Hdel sd Hsd).
  repeat split.
Qed.

(** X11 at a healthy host. *)
Lemma verbs_share_store_files_witness :
  In Sample.addStore
     (flat_map (fun ev => call_stores (ev_call ev)) (trace (snd Sample.healthyRun))) /\
  forall sd,
    In sd (flat_map (fun ev => call_stores (ev_call ev))
                    (trace (snd Sample.healthyDelRun))) ->
    DataFilePath sd = DataFilePath Sample.addStore /\
    FileOwner sd = EmptyString.
Proof.
  assert (Hsa : In Sample.addStore
                   (flat_map (fun ev => call_stores (ev_call ev))
                             (trace (snd Sample.healthyRun))))
    by (vm_compute; tauto).
  split; [exact Hsa|]. intros sd Hsd.
  destruct (@verbs_share_store_files Edge.healthyEnv (Sample.args "c1")
              Sample.webConfig
              (fst Sample.healthyRun) (snd Sample.healthyRun)
              (fst Sample.healthyDelRun) (snd Sample.healthyDelRun)
              Sample.addStore sd
              eq_refl (surjective_pairing _) (surjective_pairing _) Hsa Hsd)
    as (_ & Hdata & _ & _ & _ & Hrest).
  split; [exact Hdata|]. now injection Hrest.
Defined.

(** The masquerade rule of an Add: for the address it stored. *)
Lemma add_masq_rule E args cfg r w :
  LoadWrapperConfig E (StdinData args) = inr cfg ->
  cmdAdd E args empty_world = (r, w) ->
  forall pc ip cidr vtep,
    In (pc, ip, cidr, vtep)
       (flat_map (fun ev => call_masqRules (ev_call ev)) (trace w)) ->
    (pc, cidr, vtep) = (controller_of cfg, NoMasqueradeCIDRRange cfg, VTEPName cfg) /\
    exists store handle md ans,
      In (mkEvent (StoreAdd store handle ip md) ans) (trace w).
Proof.
  intros HLoad H pc ip cidr vtep Hin.
  apply in_flat_map in Hin. destruct Hin as (ev & Hev & Hin).
  add_cases H; try discriminate HLoad; injection HLoad as ->.
  all: norm_trace.
  all: in_inv Hev; subst ev; cbn [call_masqRules ev_call addRule_event In] in Hin;
       try contradiction.
  all: destruct Hin as [Hin|[]]; injection Hin; intros; subst.
  all: split; [reflexivity|].
  all: eexists _, _, _, _; cbn [In]; eauto 6.
Qed.

(** The masquerade rule of a Del: for the address the store handed back. *)
Lemma del_masq_rule E args cfg r w :
  LoadWrapperConfig E (StdinData args) = inr cfg ->
  cmdDel E args empty_world = (r, w) ->
  forall pc ip cidr vtep,
    In (pc, ip, cidr, vtep)
       (flat_map (fun ev => call_masqRules (ev_call ev)) (trace w)) ->
    (pc, cidr, vtep) = (controller_of cfg, NoMasqueradeCIDRRange cfg, VTEPName cfg) /\
    exists store handle c err,
      In (mkEvent (StoreDelete store handle) (AContainer c err)) (trace w) /\
      ip = Container_IP c.
Proof.
  intros HLoad H pc ip cidr vtep Hin.
  apply in_flat_map in Hin. destruct Hin as (ev & Hev & Hin).
  del_cases H; try discriminate HLoad; injection HLoad as ->.
  all: in_inv Hev; subst ev; cbn [call_masqRules ev_call In] in Hin;
       try contradiction.
  all: destruct Hin as [Hin|[]]; injection Hin; intros; subst.
  all: split; [reflexivity|].
  all: eexists _, _, _, _; split; [cbn [In]; eauto|reflexivity].
Qed.

(** X12.  A Del removes the masquerade rule that an Add of the same config
    adds: both go through the same controller, for the no-masquerade CIDR
    and the VTEP of the config.  The Add's rule is for an address it gave to
    the store, the Del's rule for the address the store handed back, so the
    two rules are one whenever the store returns what was stored. *)
Theorem del_removes_the_rule_add_added E args cfg ra wa rd wd
  pa ipa cidra vtepa pd ipd cidrd vtepd :
  LoadWrapperConfig E (StdinData args) = inr cfg ->
  cmdAdd E args empty_world = (ra, wa) ->
  cmdDel E args empty_world = (rd, wd) ->
  In (pa, ipa, cidra, vtepa)
     (flat_map (fun ev => call_masqRules (ev_call ev)) (trace wa)) ->
  In (pd, ipd, cidrd, vtepd)
     (flat_map (fun ev => call_masqRules (ev_call ev)) (trace wd)) ->
  (pd, cidrd, vtepd) = (pa, cidra, vtepa) /\
  cidra = NoMasqueradeCIDRRange cfg /\
  vtepa = VTEPName cfg /\
  (exists store handle md ans,
     In (mkEvent (StoreAdd store handle ipa md) ans) (trace wa)) /\
  (exists store handle c err,
     In (mkEvent (StoreDelete store handle) (AContainer c err)) (trace wd) /\
     ipd = Container_IP c) /\
  (ipd = ipa -> (pd, ipd, cidrd, vtepd) = (pa, ipa, cidra, vtepa)).
Proof.
  intros HLoad Ha Hd Hra Hrd.
  destruct (@add_masq_rule _ _ _ _ _ HLoad Ha _ _ _ _ Hra) as [Hrule Hstored].
  destruct (@del_masq_rule _ _ _ _ _ HLoad Hd _ _ _ _ Hrd) as [Hrule' Hback].
  injection Hrule as -> -> ->. injection Hrule' as -> -> ->.
  repeat split; auto. intros ->. reflexivity.
Qed.

(** X12 at a healthy host, whose store hands back the address stored. *)
Lemma del_removes_the_rule_add_added_witness :
  In (controller_of Sample.webConfig, "10.255.30.4", "10.255.0.0/16", "silk-vtep")
     (flat_map (fun ev => call_masqRules (ev_call ev)) (trace (snd Sample.healthyRun))) /\
  In (controller_of Sample.webConfig, "10.255.30.4", "10.255.0.0/16", "silk-vtep")
     (flat_map (fun ev => call_masqRules (ev_call ev)) (trace (snd Sample.healthyDelRun))) /\
  exists store handle md ans,
    In (mkEvent (StoreAdd store handle "10.255.30.4" md) ans)
       (trace (snd Sample.healthyRun)).
Proof.
  assert (Hra : In (controller_of Sample.webConfig, "10.255.30.4",
                    "10.255.0.0/16", "silk-vtep")
                   (flat_map (fun ev => call_masqRules (ev_call ev))
                             (trace (snd Sample.healthyRun))))
    by (vm_compute; tauto).
  assert (Hrd : In (controller_of Sample.webConfig, "10.255.30.4",
                    "10.255.0.0/16", "silk-vtep")
                   (flat_map (fun ev => call_masqRules (ev_call ev))
                             (trace (snd Sample.healthyDelRun))))
    by (vm_compute; tauto).
  destruct (@del_removes_the_rule_add_added Edge.healthyEnv (Sample.args "c1")
              Sample.webConfig
              (fst Sample.healthyRun) (snd Sample.healthyRun)
              (fst Sample.healthyDelRun) (snd Sample.healthyDelRun)
              _ _ _ _ _ _ _ _
              eq_refl (surjective_pairing _) (surjective_pairing _) Hra Hrd)
    as (_ & _ & _ & Hstored & _).
  split; [exact Hra|]. split; [exact Hrd | exact Hstored].
Defined.
